(** * Ticketing system: the booking core

    A shallow embedding of the ticket service of the repository (package
    [service], which the sources hold in two versions: with and without
    database transactions), of the entity methods it calls (package
    [entity]) and of the repository primitives it uses (package
    [repository]), with the properties of the purchase, cancellation and
    status-update paths.

    The database is a record of three tables, each a finite map from the
    primary key [id] to the row.  Every gorm call can fail; which calls fail
    during one service call is fixed by the environment of that call. *)

From Stdlib Require Import ZArith Uint63 PrimFloat.
From stdpp Require Import gmap strings fin_maps.

Local Open Scope Z_scope.

(** ** Go base types *)

(** [time.Time] as the number of nanoseconds elapsed since the zero time,
    [time.Duration] as a number of nanoseconds. *)
Definition Time : Type := Z.
Definition Duration : Type := Z.

Definition Hour : Duration := 3600 * 10 ^ 9.

Definition Time_Add (t : Time) (d : Duration) : Time := t + d.
Definition Time_Before (t u : Time) : bool := t <? u.
Definition Time_IsZero (t : Time) : bool := t =? 0.

(** Go's [int] is 64 bits wide on the platforms the service runs on. *)
Definition int_min : Z := - 2 ^ 63.
Definition int_max : Z := 2 ^ 63 - 1.
Definition int_wrap (z : Z) : Z := (z + 2 ^ 63) mod 2 ^ 64 - 2 ^ 63.
Definition int_neg (z : Z) : Z := int_wrap (- z).

(** [float64(n)] for an [int] n: the binary64 number nearest to n. *)
Definition float64_of_nonneg (z : Z) : float :=
  if z <? 2 ^ 63 then PrimFloat.of_uint63 (Uint63.of_Z z)
  else (PrimFloat.of_uint63 (Uint63.of_Z (2 ^ 62)) * 2)%float.

Definition float64_of_int (z : Z) : float :=
  if z <? 0 then (- float64_of_nonneg (- z))%float else float64_of_nonneg z.

(** ** Package entity *)

(** The four values of the [status] column of a ticket, and of an event. *)
Inductive TicketStatus : Type :=
| TicketStatusActive
| TicketStatusUsed
| TicketStatusCancelled
| TicketStatusExpired.

Inductive EventStatus : Type :=
| EventStatusActive
| EventStatusOngoing
| EventStatusCompleted
| EventStatusCancelled.

#[global] Instance TicketStatus_eq_dec : EqDecision TicketStatus.
Proof. solve_decision. Defined.

#[global] Instance EventStatus_eq_dec : EqDecision EventStatus.
Proof. solve_decision. Defined.

Module User.
(** Modelled from the spec: the declaration of [entity.User] is not among
    the sources; the service reads only its [IsActive] flag, and the
    identity lookup of the spec returns [{id, isActive}]. *)
Record t : Type := mk { ID : string; IsActive : bool }.
End User.

Module Event.
(** The columns of [entity.Event] that the ticket service reads or
    writes. *)
Record t : Type := mk {
  ID : string;
  Capacity : Z;
  Available : Z;
  Price : float;
  EventDate : Time;
  Status : EventStatus
}.

Definition set_Available (f : Z → Z) (e : t) : t :=
  mk (ID e) (Capacity e) (f (Available e)) (Price e) (EventDate e) (Status e).

Definition set_ID (i : string) (e : t) : t :=
  mk i (Capacity e) (Available e) (Price e) (EventDate e) (Status e).

(** func (e *Event) BeforeCreate *)
Definition BeforeCreate (uuid : string) (e : t) : t :=
  let e := if bool_decide (ID e = EmptyString) then set_ID uuid e else e in
  if Available e =? 0 then set_Available (λ _, Capacity e) e else e.

(** func (e *Event) IsAvailable *)
Definition IsAvailable (e : t) : bool :=
  (0 <? Available e) && bool_decide (Status e = EventStatusActive).

(** func (e *Event) CanBeModified *)
Definition CanBeModified (e : t) : bool :=
  bool_decide (Status e = EventStatusActive).
End Event.

Module Ticket.
(** The columns of [entity.Ticket] that the ticket service reads or
    writes. *)
Record t : Type := mk {
  ID : string;
  UserID : string;
  EventID : string;
  Quantity : Z;
  TotalPrice : float;
  Status : TicketStatus;
  PurchaseDate : Time
}.

Definition set_Status (s : TicketStatus) (k : t) : t :=
  mk (ID k) (UserID k) (EventID k) (Quantity k) (TotalPrice k) s
     (PurchaseDate k).

Definition set_ID (i : string) (k : t) : t :=
  mk i (UserID k) (EventID k) (Quantity k) (TotalPrice k) (Status k)
     (PurchaseDate k).

Definition set_PurchaseDate (d : Time) (k : t) : t :=
  mk (ID k) (UserID k) (EventID k) (Quantity k) (TotalPrice k) (Status k) d.

(** func (t *Ticket) BeforeCreate *)
Definition BeforeCreate (uuid : string) (now : Time) (k : t) : t :=
  let k := if bool_decide (ID k = EmptyString) then set_ID uuid k else k in
  if Time_IsZero (PurchaseDate k) then set_PurchaseDate now k else k.

(** func (t *Ticket) CanBeCancelled *)
Definition CanBeCancelled (k : t) : bool :=
  bool_decide (Status k = TicketStatusActive).
End Ticket.

Module BuyTicketRequest.
Record t : Type := mk { EventID : string; Quantity : Z }.
End BuyTicketRequest.

Module UpdateTicketStatusRequest.
Record t : Type := mk { Status : TicketStatus }.
End UpdateTicketStatusRequest.

(** ** The database and the calls made on it *)

Record DB : Type := mkDB {
  users : gmap string User.t;
  events : gmap string Event.t;
  tickets : gmap string Ticket.t
}.

Definition set_events (f : gmap string Event.t → gmap string Event.t)
    (db : DB) : DB :=
  mkDB (users db) (f (events db)) (tickets db).

Definition set_tickets (f : gmap string Ticket.t → gmap string Ticket.t)
    (db : DB) : DB :=
  mkDB (users db) (events db) (f (tickets db)).

(** The places where the service talks to the database. *)
Inductive DbCall : Type :=
| UserGetByID
| EventFirst
| EventGetByID
| TicketFirst
| TicketGetByID
| TicketCreate
| TicketSave
| TicketUpdate
| TicketUpdateRevert
| TicketDelete
| EventUpdateColumn
| EventUpdateAvailableTickets
| TxCommit.

#[global] Instance DbCall_eq_dec : EqDecision DbCall.
Proof. solve_decision. Defined.

(** The errors the service returns: [gorm.ErrRecordNotFound], the messages
    built with [errors.New], and any other error of a database call. *)
Inductive error : Type :=
| ErrRecordNotFound
| ErrUserNotActive
| ErrEventNotAvailable
| ErrInsufficientTickets
| ErrPurchaseTooLate
| ErrCannotUpdateCancelled
| ErrOnlyActiveUsed
| ErrNotOwner
| ErrNotCancellable
| ErrCancelTooLate
| ErrStorage (c : DbCall).

(** [err.Error()]: the text gorm gives its not-found error and the texts
    of the source; another database error brings a text of its own. *)
Definition error_message (e : error) : option string :=
  match e with
  | ErrRecordNotFound => Some "record not found"%string
  | ErrUserNotActive => Some "user account is not active"%string
  | ErrEventNotAvailable => Some "event is not available for booking"%string
  | ErrInsufficientTickets => Some "insufficient tickets available"%string
  | ErrPurchaseTooLate =>
      Some "cannot purchase tickets for events starting within an hour"%string
  | ErrCannotUpdateCancelled => Some "cannot update cancelled ticket"%string
  | ErrOnlyActiveUsed => Some "can only mark active tickets as used"%string
  | ErrNotOwner => Some "you can only cancel your own tickets"%string
  | ErrNotCancellable => Some "ticket cannot be cancelled"%string
  | ErrCancelTooLate =>
      Some "cannot cancel tickets within 2 hours of event start"%string
  | ErrStorage _ => None
  end.

(** The error classes of the specification, attached to the errors of the
    service as sections 4.1, 4.2, 4.3 and 7 of the specification name them. *)
Inductive ErrorKind : Type :=
| NotFound | Forbidden | Conflict | InvalidState | Internal.

Definition spec_kind (e : error) : ErrorKind :=
  match e with
  | ErrRecordNotFound => NotFound
  | ErrUserNotActive | ErrNotOwner => Forbidden
  | ErrEventNotAvailable | ErrInsufficientTickets => Conflict
  | ErrPurchaseTooLate | ErrCancelTooLate | ErrNotCancellable
  | ErrCannotUpdateCancelled | ErrOnlyActiveUsed => InvalidState
  | ErrStorage _ => Internal
  end.

(** What one service call gets from outside: which database calls fail,
    the instant [time.Now()] reads during the call (one instant for the
    whole call), and the identifier [uuid.New()] draws. *)
Record Env : Type := mkEnv {
  fails : DbCall → bool;
  now : Time;
  uuid : string
}.

Definition no_fault : DbCall → bool := λ _, false.

(** ** Calls that read or write the database and may return an error *)

Inductive result (A : Type) : Type :=
| Ok (a : A)
| Err (e : error).
Arguments Ok {A} a.
Arguments Err {A} e.

Definition M (A : Type) : Type := DB → DB * result A.

Definition ret {A} (a : A) : M A := λ db, (db, Ok a).
Definition fail {A} (e : error) : M A := λ db, (db, Err e).
Definition bind {A B} (m : M A) (k : A → M B) : M B :=
  λ db, match m db with
        | (db', Ok a) => k a db'
        | (db', Err e) => (db', Err e)
        end.

Notation "'let*' x ':=' m 'in' k" := (bind m (λ x, k))
  (at level 10, x name, m at level 100, k at level 200).

(** [if cond { return err }] *)
Definition reject_if {A} (cond : bool) (e : error) (k : M A) : M A :=
  if cond then fail e else k.

(** A gorm call at site [c]: it returns its error and does nothing when
    the environment makes it fail. *)
Definition call {A} (η : Env) (c : DbCall) (m : M A) : M A :=
  if fails η c then fail (ErrStorage c) else m.

(** [Where("id = ?", id).First(&row)] on a table. *)
Definition First {A} (table : DB → gmap string A) (id : string) : M A :=
  λ db, match table db !! id with
        | Some row => (db, Ok row)
        | None => (db, Err ErrRecordNotFound)
        end.

(** [Create(ticket)]: the hook fills the identifier, the row is inserted;
    an identifier already in the table is refused by the primary key. *)
Definition create_ticket (η : Env) (c : DbCall) (k : Ticket.t)
    : M Ticket.t :=
  call η c (λ db,
    let k := Ticket.BeforeCreate (uuid η) (now η) k in
    match tickets db !! Ticket.ID k with
    | Some _ => (db, Err (ErrStorage c))
    | None => (set_tickets (insert (Ticket.ID k) k) db, Ok k)
    end).

(** [Save(ticket)]: the row of that identifier is written. *)
Definition save_ticket (η : Env) (c : DbCall) (k : Ticket.t) : M unit :=
  call η c (λ db, (set_tickets (insert (Ticket.ID k) k) db, Ok tt)).

(** [Delete(&entity.Ticket{}, "id = ?", id)]: the row is marked as deleted
    and no query sees it any more. *)
Definition delete_ticket (η : Env) (c : DbCall) (id : string) : M unit :=
  call η c (λ db, (set_tickets (delete id) db, Ok tt)).

(** [Model(&entity.Event{}).Where("id = ?", id).UpdateColumn("available",
    expr)]: the rows that match are updated; no row matching is no error. *)
Definition update_available (η : Env) (c : DbCall) (id : string)
    (expr : Z → Z) : M unit :=
  call η c (λ db,
    (set_events (alter (Event.set_Available expr) id) db, Ok tt)).

(** [db.Transaction(func(tx) error {...})]: the writes of the body are kept
    when the body returns no error and the commit succeeds, and are undone
    otherwise. *)
Definition Transaction {A} (η : Env) (body : M A) : M A :=
  λ db, match body db with
        | (db', Ok a) =>
            if fails η TxCommit then (db, Err (ErrStorage TxCommit))
            else (db', Ok a)
        | (_, Err e) => (db, Err e)
        end.

(** ** Package repository *)

(** func (r *userRepository) GetByID *)
Definition userRepo_GetByID (η : Env) (id : string) : M User.t :=
  call η UserGetByID (First users id).

(** func (r *eventRepository) GetByID *)
Definition eventRepo_GetByID (η : Env) (id : string) : M Event.t :=
  call η EventGetByID (First events id).

(** func (r *eventRepository) UpdateAvailableTickets *)
Definition eventRepo_UpdateAvailableTickets (η : Env) (eventID : string)
    (quantity : Z) : M unit :=
  update_available η EventUpdateAvailableTickets eventID
    (λ available, available - quantity).

(** func (r *ticketRepository) GetByID; the preloaded user and event of
    the ticket are for display and are left out of the row. *)
Definition ticketRepo_GetByID (η : Env) (id : string) : M Ticket.t :=
  call η TicketGetByID (First tickets id).

(** func (r *ticketRepository) Create *)
Definition ticketRepo_Create (η : Env) (k : Ticket.t) : M Ticket.t :=
  create_ticket η TicketCreate k.

(** func (r *ticketRepository) Update; the second argument tells the two
    places apart where the cancellation without transaction calls it. *)
Definition ticketRepo_Update (η : Env) (c : DbCall) (k : Ticket.t)
    : M unit :=
  save_ticket η c k.

(** func (r *ticketRepository) Delete *)
Definition ticketRepo_Delete (η : Env) (id : string) : M unit :=
  delete_ticket η TicketDelete id.

(** ** Package service: the ticket service with transactions *)

(** func (s *ticketService) GetTicketByID *)
Definition GetTicketByID (η : Env) (id : string) : M Ticket.t :=
  ticketRepo_GetByID η id.

(** func (s *ticketService) BuyTicket, first version of the file: the
    checks and the two writes run inside [s.db.Transaction], the ticket is
    read again after the commit. *)
Definition BuyTicket (η : Env) (userID : string) (req : BuyTicketRequest.t)
    : M Ticket.t :=
  let eventID := BuyTicketRequest.EventID req in
  let quantity := BuyTicketRequest.Quantity req in
  let* ticket := Transaction η (
    let* user := userRepo_GetByID η userID in
    reject_if (negb (User.IsActive user)) ErrUserNotActive (
    let* event := call η EventFirst (First events eventID) in
    reject_if (negb (Event.IsAvailable event)) ErrEventNotAvailable (
    reject_if (Event.Available event <? quantity) ErrInsufficientTickets (
    reject_if (Time_Before (Event.EventDate event) (Time_Add (now η) Hour))
      ErrPurchaseTooLate (
    let totalPrice := (Event.Price event * float64_of_int quantity)%float in
    let ticket :=
      Ticket.mk EmptyString userID eventID quantity totalPrice
        TicketStatusActive (now η) in
    let* ticket := create_ticket η TicketCreate ticket in
    let* _ := update_available η EventUpdateColumn eventID
                (λ available, available - quantity) in
    ret ticket))))) in
  GetTicketByID η (Ticket.ID ticket).

(** func (s *ticketService) UpdateTicketStatus; its text is the same in
    the two versions of the file. *)
Definition UpdateTicketStatus (η : Env) (ticketID : string)
    (req : UpdateTicketStatusRequest.t) : M Ticket.t :=
  let status := UpdateTicketStatusRequest.Status req in
  let* ticket := ticketRepo_GetByID η ticketID in
  reject_if (bool_decide (Ticket.Status ticket = TicketStatusCancelled))
    ErrCannotUpdateCancelled (
  reject_if (bool_decide (status = TicketStatusUsed)
             && bool_decide (Ticket.Status ticket ≠ TicketStatusActive))
    ErrOnlyActiveUsed (
  let ticket := Ticket.set_Status status ticket in
  let* _ := ticketRepo_Update η TicketUpdate ticket in
  ret ticket)).

(** func (s *ticketService) CancelTicket, first version of the file. *)
Definition CancelTicket (η : Env) (ticketID userID : string) : M Ticket.t :=
  Transaction η (
    let* ticket := call η TicketFirst (First tickets ticketID) in
    reject_if (bool_decide (Ticket.UserID ticket ≠ userID)) ErrNotOwner (
    reject_if (negb (Ticket.CanBeCancelled ticket)) ErrNotCancellable (
    let* event := call η EventFirst (First events (Ticket.EventID ticket)) in
    reject_if (Time_Before (Event.EventDate event)
                 (Time_Add (now η) (2 * Hour)))
      ErrCancelTooLate (
    let ticket := Ticket.set_Status TicketStatusCancelled ticket in
    let* _ := save_ticket η TicketSave ticket in
    let* _ := update_available η EventUpdateColumn (Ticket.EventID ticket)
                (λ available, available + Ticket.Quantity ticket) in
    ret ticket)))).

(** ** Package service: the ticket service without transactions *)

Module Unlocked.

(** [if err := m; err != nil { undo; return nil, err }]: the error of
    [undo] itself is not looked at. *)
Definition undo_on_error {A B C} (m : M A) (undo : M B) (k : A → M C)
    : M C :=
  λ db, match m db with
        | (db', Ok a) => k a db'
        | (db', Err e) => (fst (undo db'), Err e)
        end.

(** func (s *ticketService) BuyTicket, second version of the file. *)
Definition BuyTicket (η : Env) (userID : string)
    (req : BuyTicketRequest.t) : M Ticket.t :=
  let eventID := BuyTicketRequest.EventID req in
  let quantity := BuyTicketRequest.Quantity req in
  let* user := userRepo_GetByID η userID in
  reject_if (negb (User.IsActive user)) ErrUserNotActive (
  let* event := eventRepo_GetByID η eventID in
  reject_if (negb (Event.IsAvailable event)) ErrEventNotAvailable (
  reject_if (Event.Available event <? quantity) ErrInsufficientTickets (
  reject_if (Time_Before (Event.EventDate event) (Time_Add (now η) Hour))
    ErrPurchaseTooLate (
  let totalPrice := (Event.Price event * float64_of_int quantity)%float in
  let ticket :=
    Ticket.mk EmptyString userID eventID quantity totalPrice
      TicketStatusActive (now η) in
  let* ticket := ticketRepo_Create η ticket in
  undo_on_error (eventRepo_UpdateAvailableTickets η eventID quantity)
    (ticketRepo_Delete η (Ticket.ID ticket))
    (λ _, GetTicketByID η (Ticket.ID ticket)))))).

(** The same function in two parts: its reads and checks, up to the check
    of the event date, and its writes, from the price on.  Between the two
    the service holds no lock on the event row. *)
Definition BuyTicket_checks (η : Env) (userID : string)
    (req : BuyTicketRequest.t) : M Event.t :=
  let eventID := BuyTicketRequest.EventID req in
  let quantity := BuyTicketRequest.Quantity req in
  let* user := userRepo_GetByID η userID in
  reject_if (negb (User.IsActive user)) ErrUserNotActive (
  let* event := eventRepo_GetByID η eventID in
  reject_if (negb (Event.IsAvailable event)) ErrEventNotAvailable (
  reject_if (Event.Available event <? quantity) ErrInsufficientTickets (
  reject_if (Time_Before (Event.EventDate event) (Time_Add (now η) Hour))
    ErrPurchaseTooLate (
  ret event)))).

Definition BuyTicket_writes (η : Env) (userID : string)
    (req : BuyTicketRequest.t) (event : Event.t) : M Ticket.t :=
  let eventID := BuyTicketRequest.EventID req in
  let quantity := BuyTicketRequest.Quantity req in
  let totalPrice := (Event.Price event * float64_of_int quantity)%float in
  let ticket :=
    Ticket.mk EmptyString userID eventID quantity totalPrice
      TicketStatusActive (now η) in
  let* ticket := ticketRepo_Create η ticket in
  undo_on_error (eventRepo_UpdateAvailableTickets η eventID quantity)
    (ticketRepo_Delete η (Ticket.ID ticket))
    (λ _, GetTicketByID η (Ticket.ID ticket)).

(** func (s *ticketService) UpdateTicketStatus, second version. *)
Definition UpdateTicketStatus (η : Env) (ticketID : string)
    (req : UpdateTicketStatusRequest.t) : M Ticket.t :=
  let status := UpdateTicketStatusRequest.Status req in
  let* ticket := ticketRepo_GetByID η ticketID in
  reject_if (bool_decide (Ticket.Status ticket = TicketStatusCancelled))
    ErrCannotUpdateCancelled (
  reject_if (bool_decide (status = TicketStatusUsed)
             && bool_decide (Ticket.Status ticket ≠ TicketStatusActive))
    ErrOnlyActiveUsed (
  let ticket := Ticket.set_Status status ticket in
  let* _ := ticketRepo_Update η TicketUpdate ticket in
  ret ticket)).

(** func (s *ticketService) CancelTicket, second version of the file. *)
Definition CancelTicket (η : Env) (ticketID userID : string)
    : M Ticket.t :=
  let* ticket := ticketRepo_GetByID η ticketID in
  reject_if (bool_decide (Ticket.UserID ticket ≠ userID)) ErrNotOwner (
  reject_if (negb (Ticket.CanBeCancelled ticket)) ErrNotCancellable (
  let* event := eventRepo_GetByID η (Ticket.EventID ticket) in
  reject_if (Time_Before (Event.EventDate event)
               (Time_Add (now η) (2 * Hour)))
    ErrCancelTooLate (
  let ticket := Ticket.set_Status TicketStatusCancelled ticket in
  let* _ := ticketRepo_Update η TicketUpdate ticket in
  undo_on_error
    (eventRepo_UpdateAvailableTickets η (Ticket.EventID ticket)
       (int_neg (Ticket.Quantity ticket)))
    (ticketRepo_Update η TicketUpdateRevert
       (Ticket.set_Status TicketStatusActive ticket))
    (λ _, ret ticket)))).

End Unlocked.

(** ** The capacity ledger *)

(** A ticket holds capacity of its event while it is active or used. *)
Definition holds (eventID : string) (k : Ticket.t) : Z :=
  if bool_decide (Ticket.EventID k = eventID)
     && (bool_decide (Ticket.Status k = TicketStatusActive)
         || bool_decide (Ticket.Status k = TicketStatusUsed))
  then Ticket.Quantity k else 0.

Definition held (eventID : string) (ledger : gmap string Ticket.t) : Z :=
  map_fold (λ _ k acc, holds eventID k + acc) 0 ledger.

Definition conserved (db : DB) : Prop :=
  ∀ id e, events db !! id = Some e →
    Event.Available e + held id (tickets db) = Event.Capacity e.

(** Rows are stored under their own identifier. *)
Definition keyed (db : DB) : Prop :=
  ∀ id k, tickets db !! id = Some k → Ticket.ID k = id.

(** ** Scenario B of the specification *)

Definition alice : User.t := User.mk "u1" true.

Definition concert (available : Z) : Event.t :=
  Event.mk "e1" 10 available 50 (100 * Hour) EventStatusActive.

Definition db0 : DB :=
  mkDB {[ "u1"%string := alice ]} {[ "e1"%string := concert 10 ]} ∅.

Definition env0 : Env := mkEnv no_fault (10 * Hour) "t1".

Definition ticket_B (s : TicketStatus) : Ticket.t :=
  Ticket.mk "t1" "u1" "e1" 3 150 s (10 * Hour).

(** The database after the purchase, with [available] units left and the
    ticket in status [s]. *)
Definition db_B (available : Z) (s : TicketStatus) : DB :=
  mkDB {[ "u1"%string := alice ]} {[ "e1"%string := concert available ]}
       {[ "t1"%string := ticket_B s ]}.

Definition db1 : DB := db_B 7 TicketStatusActive.

(** The environment of scenario B in which the calls of [faulty] fail. *)
Definition env_failing (faulty : list DbCall) : Env :=
  mkEnv (λ c, bool_decide (c ∈ faulty)) (10 * Hour) "t1".

(** ** Purchases one after the other *)

(** The calls of [calls] run in turn, each on the database the one before
    left; the quantities of those that returned a ticket are collected. *)
Fixpoint buy_in_turn (calls : list (Env * string * BuyTicketRequest.t))
    (db : DB) : DB * list Z :=
  match calls with
  | [] => (db, [])
  | (η, userID, req) :: rest =>
      match BuyTicket η userID req db with
      | (db', Ok _) =>
          let '(db'', sold) := buy_in_turn rest db' in
          (db'', BuyTicketRequest.Quantity req :: sold)
      | (db', Err _) => buy_in_turn rest db'
      end
  end.

Definition sum_Z (l : list Z) : Z := foldr Z.add 0 l.

(** ** The transition table of the specification *)

(** Section 4.3 of the specification: the only transitions of a ticket are
    active to used and active to cancelled. *)
Definition spec_allowed_transition (from to : TicketStatus) : bool :=
  match from, to with
  | TicketStatusActive, TicketStatusUsed => true
  | TicketStatusActive, TicketStatusCancelled => true
  | _, _ => false
  end.

(** ** Sequences of service calls *)

(** A purchase, a cancellation by a user, or the status update that marks
    a ticket as used, each with the environment it runs in. *)
Inductive ServiceCall : Type :=
| CallBuyTicket (η : Env) (userID : string) (req : BuyTicketRequest.t)
| CallCancelTicket (η : Env) (ticketID userID : string)
| CallMarkUsed (η : Env) (ticketID : string).

(** The database one call leaves, whether it returned a ticket or an
    error. *)
Definition run_call (c : ServiceCall) (db : DB) : DB :=
  match c with
  | CallBuyTicket η userID req => fst (BuyTicket η userID req db)
  | CallCancelTicket η ticketID userID =>
      fst (CancelTicket η ticketID userID db)
  | CallMarkUsed η ticketID =>
      fst (UpdateTicketStatus η ticketID
             (UpdateTicketStatusRequest.mk TicketStatusUsed) db)
  end.

Definition run_calls (cs : list ServiceCall) (db : DB) : DB :=
  foldl (λ db c, run_call c db) db cs.

(** A purchase request as the validation tag of its quantity wants it
    ([min=1]). *)
Definition valid_call (c : ServiceCall) : Prop :=
  match c with
  | CallBuyTicket _ _ req => 1 ≤ BuyTicketRequest.Quantity req
  | _ => True
  end.

(** No ticket of the ledger has a negative quantity; no event has a
    negative count. *)
Definition nonneg_ledger (db : DB) : Prop :=
  ∀ id k, tickets db !! id = Some k → 0 ≤ Ticket.Quantity k.

Definition nonneg_stock (db : DB) : Prop :=
  ∀ id e, events db !! id = Some e → 0 ≤ Event.Available e.

(** ** Pagination *)

Module Pagination.
Record t : Type := mk { Page : Z; Limit : Z }.

(** func (p *Pagination) GetLimit; the method writes the limit it returns
    into its receiver, which is returned beside the result. *)
Definition GetLimit (p : t) : Z * t :=
  let p := if Limit p <=? 0 then mk (Page p) 10 else p in
  let p := if 100 <? Limit p then mk (Page p) 100 else p in
  (Limit p, p).

(** func (p *Pagination) GetOffset *)
Definition GetOffset (p : t) : Z * t :=
  let p := if Page p <=? 0 then mk 1 (Limit p) else p in
  let page_minus_1 := int_wrap (Page p - 1) in
  let '(limit, p) := GetLimit p in
  (int_wrap (page_minus_1 * limit), p).
End Pagination.

Module PaginationMeta.
Record t : Type := mk {
  CurrentPage : Z;
  TotalPages : Z;
  TotalItems : Z;
  Limit : Z
}.
End PaginationMeta.

(** What the repository does to the pagination when it runs a list query:
    [query.Offset(pagination.GetOffset()).Limit(pagination.GetLimit())]. *)
Definition repo_paginate (p : Pagination.t) : Z * Z * Pagination.t :=
  let '(offset, p) := Pagination.GetOffset p in
  let '(limit, p) := Pagination.GetLimit p in
  (offset, limit, p).

(** The [meta] that GetUserTickets and GetAllTickets build once the
    repository has returned the number [total] of rows the query matches:
    the fields of the struct in their order, with Go's division of
    [int64]s, which truncates. *)
Definition list_meta (p : Pagination.t) (total : Z) : PaginationMeta.t :=
  let '(_, _, p) := repo_paginate p in
  let currentPage := Pagination.Page p in
  let '(limit, p) := Pagination.GetLimit p in
  let '(limit1, p) := Pagination.GetLimit p in
  let '(limit2, p) := Pagination.GetLimit p in
  let totalPages :=
    Z.quot (int_wrap (int_wrap (total + limit1) - 1)) limit2 in
  PaginationMeta.mk currentPage totalPages total limit.

(** ** Package controller: the ticket handlers *)

(** [err.Error() == msg].  The text of a database error other than
    [gorm.ErrRecordNotFound] is the one the database gives it, which is
    none of the texts the handlers compare with. *)
Definition error_is (e : error) (msg : string) : bool :=
  bool_decide (error_message e = Some msg).

Definition StatusOK : Z := 200.
Definition StatusCreated : Z := 201.
Definition StatusBadRequest : Z := 400.
Definition StatusUnauthorized : Z := 401.
Definition StatusForbidden : Z := 403.
Definition StatusNotFound : Z := 404.
Definition StatusInternalServerError : Z := 500.

(** The handlers as far as the database and the status code of the
    response go.  What gin gives a handler is an argument: the user id or
    the user that the authentication left in the context, if any; the path
    parameter [id]; the request bound from the JSON body, if the binding
    succeeded. *)
Module TicketController.

(** func (tc *TicketController) BuyTicket *)
Definition BuyTicket (η : Env) (userID : option string)
    (body : option BuyTicketRequest.t) (db : DB) : DB * Z :=
  match userID with
  | None => (db, StatusUnauthorized)
  | Some userID =>
      match body with
      | None => (db, StatusBadRequest)
      | Some req =>
          match BuyTicket η userID req db with
          | (db', Err e) =>
              (db',
               if error_is e "user account is not active"
                  || error_is e "event is not available for booking"
                  || error_is e "insufficient tickets available"
                  || error_is e
                       "cannot purchase tickets for events starting within an hour"
               then StatusBadRequest
               else StatusInternalServerError)
          | (db', Ok _) => (db', StatusCreated)
          end
      end
  end.

(** func (tc *TicketController) GetTicketByID; [IsAdmin] is the method of
    [entity.User], whose declaration is not among the sources. *)
Definition GetTicketByID (IsAdmin : User.t → bool) (η : Env)
    (ticketID : string) (currentUser : option User.t) (db : DB) : Z :=
  if bool_decide (ticketID = EmptyString) then StatusBadRequest
  else
    match GetTicketByID η ticketID db with
    | (_, Err _) => StatusNotFound
    | (_, Ok ticket) =>
        match currentUser with
        | None => StatusUnauthorized
        | Some currentUser =>
            if negb (IsAdmin currentUser)
               && bool_decide (Ticket.UserID ticket ≠ User.ID currentUser)
            then StatusForbidden
            else StatusOK
        end
    end.

(** func (tc *TicketController) UpdateTicketStatus *)
Definition UpdateTicketStatus (η : Env) (ticketID : string)
    (body : option UpdateTicketStatusRequest.t) (db : DB) : DB * Z :=
  if bool_decide (ticketID = EmptyString) then (db, StatusBadRequest)
  else
    match body with
    | None => (db, StatusBadRequest)
    | Some req =>
        match UpdateTicketStatus η ticketID req db with
        | (db', Err e) =>
            (db',
             if error_is e "cannot update cancelled ticket"
                || error_is e "can only mark active tickets as used"
             then StatusBadRequest
             else StatusInternalServerError)
        | (db', Ok _) => (db', StatusOK)
        end
    end.

(** func (tc *TicketController) CancelTicket *)
Definition CancelTicket (η : Env) (ticketID : string)
    (userID : option string) (db : DB) : DB * Z :=
  if bool_decide (ticketID = EmptyString) then (db, StatusBadRequest)
  else
    match userID with
    | None => (db, StatusUnauthorized)
    | Some userID =>
        match CancelTicket η ticketID userID db with
        | (db', Err e) =>
            (db',
             if error_is e "you can only cancel your own tickets"
             then StatusForbidden
             else if error_is e "ticket cannot be cancelled"
                     || error_is e
                          "cannot cancel tickets within 2 hours of event start"
             then StatusBadRequest
             else StatusInternalServerError)
        | (db', Ok _) => (db', StatusOK)
        end
    end.

End TicketController.

(** ** The events table with all its columns *)

(** A row of the events table as the event service sees it: the columns of
    the ticket model and the four text columns. *)
Module EventRow.
Record t : Type := mk {
  core : Event.t;
  Name : string;
  Description : string;
  Category : string;
  Location : string
}.

Definition set_core (f : Event.t → Event.t) (r : t) : t :=
  mk (f (core r)) (Name r) (Description r) (Category r) (Location r).
Definition set_Name (x : string) (r : t) : t :=
  mk (core r) x (Description r) (Category r) (Location r).
Definition set_Description (x : string) (r : t) : t :=
  mk (core r) (Name r) x (Category r) (Location r).
Definition set_Category (x : string) (r : t) : t :=
  mk (core r) (Name r) (Description r) x (Location r).
Definition set_Location (x : string) (r : t) : t :=
  mk (core r) (Name r) (Description r) (Category r) x.
End EventRow.

Module CreateEventRequest.
Record t : Type := mk {
  Name : string;
  Description : string;
  Category : string;
  Capacity : Z;
  Price : float;
  Location : string;
  EventDate : Time
}.
End CreateEventRequest.

(** A field that is [nil] in the request is [None]. *)
Module UpdateEventRequest.
Record t : Type := mk {
  Name : option string;
  Description : option string;
  Category : option string;
  Capacity : option Z;
  Price : option float;
  Location : option string;
  EventDate : option Time
}.
End UpdateEventRequest.

(** The calls of the event repository, and the errors of the event
    service. *)
Inductive CatalogCall : Type :=
| CatalogGetByID
| CatalogGetByName
| CatalogCreate
| CatalogUpdate
| CatalogDelete.

Inductive event_error : Type :=
| EErrRecordNotFound
| EErrDatePast
| EErrNameExists
| EErrNotActive
| EErrCapacityNegative
| EErrCapacityBelowSold
| EErrPriceNegative
| EErrHasSoldTickets
| EErrStorage (c : CatalogCall).

Definition event_error_message (e : event_error) : option string :=
  match e with
  | EErrRecordNotFound => Some "record not found"%string
  | EErrDatePast => Some "event date cannot be in the past"%string
  | EErrNameExists => Some "event name already exists"%string
  | EErrNotActive => Some "cannot modify event that is not active"%string
  | EErrCapacityNegative => Some "capacity cannot be negative"%string
  | EErrCapacityBelowSold =>
      Some "cannot reduce capacity below sold tickets"%string
  | EErrPriceNegative => Some "price cannot be negative"%string
  | EErrHasSoldTickets => Some "cannot delete event with sold tickets"%string
  | EErrStorage _ => None
  end.

Record EventEnv : Type := mkEventEnv {
  ev_fails : CatalogCall → bool;
  ev_now : Time;
  ev_uuid : string
}.

Inductive eresult (A : Type) : Type :=
| EOk (a : A)
| EErr (e : event_error).
Arguments EOk {A} a.
Arguments EErr {A} e.

(** Calls on the events table that may return an error. *)
Definition EM (A : Type) : Type :=
  gmap string EventRow.t → gmap string EventRow.t * eresult A.

Definition eret {A} (a : A) : EM A := λ cat, (cat, EOk a).
Definition efail {A} (e : event_error) : EM A := λ cat, (cat, EErr e).
Definition ebind {A B} (m : EM A) (k : A → EM B) : EM B :=
  λ cat, match m cat with
         | (cat', EOk a) => k a cat'
         | (cat', EErr e) => (cat', EErr e)
         end.

Notation "'let+' x ':=' m 'in' k" := (ebind m (λ x, k))
  (at level 10, x name, m at level 100, k at level 200).

Definition ereject_if {A} (cond : bool) (e : event_error) (k : EM A)
    : EM A :=
  if cond then efail e else k.

Definition ecall {A} (η : EventEnv) (c : CatalogCall) (m : EM A) : EM A :=
  if ev_fails η c then efail (EErrStorage c) else m.

(** ** Package repository: the event repository *)

Module EventRepository.

(** The rows of another identifier that carry the name [name]: the unique
    index on the column keeps a write from adding one. *)
Definition name_used_by_other (id name : string)
    (cat : gmap string EventRow.t) : bool :=
  bool_decide
    (map_Exists (λ i r, i ≠ id ∧ EventRow.Name r = name) cat).

(** func (r *eventRepository) Create: the hook fills the identifier and the
    count, the row is inserted; the primary key and the unique index on the
    name refuse a row that repeats an identifier or a name. *)
Definition Create (η : EventEnv) (row : EventRow.t) : EM EventRow.t :=
  ecall η CatalogCreate (λ cat,
    let row := EventRow.set_core (Event.BeforeCreate (ev_uuid η)) row in
    let id := Event.ID (EventRow.core row) in
    match cat !! id with
    | Some _ => (cat, EErr (EErrStorage CatalogCreate))
    | None =>
        if name_used_by_other id (EventRow.Name row) cat
        then (cat, EErr (EErrStorage CatalogCreate))
        else (<[id := row]> cat, EOk row)
    end).

(** func (r *eventRepository) GetByID *)
Definition GetByID (η : EventEnv) (id : string) : EM EventRow.t :=
  ecall η CatalogGetByID (λ cat,
    match cat !! id with
    | Some row => (cat, EOk row)
    | None => (cat, EErr EErrRecordNotFound)
    end).

(** func (r *eventRepository) GetByName: a row of that name, if there is
    one; the unique index leaves at most one. *)
Definition GetByName (η : EventEnv) (name : string) : EM EventRow.t :=
  ecall η CatalogGetByName (λ cat,
    match
      head (map_to_list
              (filter (λ ir, EventRow.Name ir.2 = name) cat))
    with
    | Some (_, row) => (cat, EOk row)
    | None => (cat, EErr EErrRecordNotFound)
    end).

(** func (r *eventRepository) Update: [Save] writes the row of that
    identifier. *)
Definition Update (η : EventEnv) (row : EventRow.t) : EM unit :=
  ecall η CatalogUpdate (λ cat,
    let id := Event.ID (EventRow.core row) in
    if name_used_by_other id (EventRow.Name row) cat
    then (cat, EErr (EErrStorage CatalogUpdate))
    else (<[id := row]> cat, EOk tt)).

(** func (r *eventRepository) Delete *)
Definition Delete (η : EventEnv) (id : string) : EM unit :=
  ecall η CatalogDelete (λ cat, (delete id cat, EOk tt)).

End EventRepository.

(** ** Package service: the event service *)

Module EventService.

(** The check both CreateEvent and UpdateEvent make before they take a
    name: an error of the lookup other than "record not found" is
    returned, a row found is "event name already exists". *)
Definition name_must_be_free {A} (η : EventEnv) (name : string)
    (k : EM A) : EM A :=
  λ cat, match EventRepository.GetByName η name cat with
         | (_, EErr EErrRecordNotFound) => k cat
         | (_, EErr e) => (cat, EErr e)
         | (_, EOk _) => (cat, EErr EErrNameExists)
         end.

(** func (s *eventService) CreateEvent *)
Definition CreateEvent (η : EventEnv) (req : CreateEventRequest.t)
    : EM EventRow.t :=
  ereject_if (Time_Before (CreateEventRequest.EventDate req) (ev_now η))
    EErrDatePast (
  name_must_be_free η (CreateEventRequest.Name req) (
  let event :=
    EventRow.mk
      (Event.mk EmptyString (CreateEventRequest.Capacity req)
         (CreateEventRequest.Capacity req) (CreateEventRequest.Price req)
         (CreateEventRequest.EventDate req) EventStatusActive)
      (CreateEventRequest.Name req) (CreateEventRequest.Description req)
      (CreateEventRequest.Category req) (CreateEventRequest.Location req) in
  let+ event := EventRepository.Create η event in
  eret event)).

(** func (s *eventService) GetEventByID *)
Definition GetEventByID (η : EventEnv) (id : string) : EM EventRow.t :=
  EventRepository.GetByID η id.

(** [if req.Field != nil { event.Field = *req.Field }] *)
Definition set_if_given {A} (field : option A)
    (set : A → EventRow.t → EventRow.t) (event : EventRow.t) : EventRow.t :=
  match field with
  | Some x => set x event
  | None => event
  end.

(** func (s *eventService) UpdateEvent *)
Definition UpdateEvent (η : EventEnv) (id : string)
    (req : UpdateEventRequest.t) : EM EventRow.t :=
  let+ event := EventRepository.GetByID η id in
  ereject_if (negb (Event.CanBeModified (EventRow.core event)))
    EErrNotActive (
  let+ event :=
    match UpdateEventRequest.Name req with
    | Some name =>
        if bool_decide (name ≠ EventRow.Name event)
        then name_must_be_free η name (eret (EventRow.set_Name name event))
        else eret (EventRow.set_Name name event)
    | None => eret event
    end in
  let event :=
    set_if_given (UpdateEventRequest.Description req)
      EventRow.set_Description event in
  let event :=
    set_if_given (UpdateEventRequest.Category req)
      EventRow.set_Category event in
  let+ event :=
    match UpdateEventRequest.Capacity req with
    | Some capacity =>
        ereject_if (capacity <? 0) EErrCapacityNegative (
        let soldTickets :=
          int_wrap (Event.Capacity (EventRow.core event)
                    - Event.Available (EventRow.core event)) in
        ereject_if (capacity <? soldTickets) EErrCapacityBelowSold (
        eret (EventRow.set_core
                (λ e, Event.mk (Event.ID e) capacity
                        (int_wrap (capacity - soldTickets)) (Event.Price e)
                        (Event.EventDate e) (Event.Status e))
                event)))
    | None => eret event
    end in
  let+ event :=
    match UpdateEventRequest.Price req with
    | Some price =>
        ereject_if (PrimFloat.ltb price 0) EErrPriceNegative (
        eret (EventRow.set_core
                (λ e, Event.mk (Event.ID e) (Event.Capacity e)
                        (Event.Available e) price (Event.EventDate e)
                        (Event.Status e))
                event))
    | None => eret event
    end in
  let event :=
    set_if_given (UpdateEventRequest.Location req)
      EventRow.set_Location event in
  let+ event :=
    match UpdateEventRequest.EventDate req with
    | Some date =>
        ereject_if (Time_Before date (ev_now η)) EErrDatePast (
        eret (EventRow.set_core
                (λ e, Event.mk (Event.ID e) (Event.Capacity e)
                        (Event.Available e) (Event.Price e) date
                        (Event.Status e))
                event))
    | None => eret event
    end in
  let+ _ := EventRepository.Update η event in
  eret event).

(** func (s *eventService) DeleteEvent *)
Definition DeleteEvent (η : EventEnv) (id : string) : EM unit :=
  let+ event := EventRepository.GetByID η id in
  let soldTickets :=
    int_wrap (Event.Capacity (EventRow.core event)
              - Event.Available (EventRow.core event)) in
  ereject_if (0 <? soldTickets) EErrHasSoldTickets (
  EventRepository.Delete η id).

End EventService.

(** The events table as the ticket service sees it. *)
Definition events_of (cat : gmap string EventRow.t)
    : gmap string Event.t :=
  EventRow.core <$> cat.

(** Rows of the events table are stored under their own identifier; no two
    rows carry the same name. *)
Definition catalog_keyed (cat : gmap string EventRow.t) : Prop :=
  ∀ id row, cat !! id = Some row → Event.ID (EventRow.core row) = id.


(** ** Sequences of calls of the event service *)




(** An events table with one row, for the examples. *)
Definition env_admin : EventEnv :=
  mkEventEnv (λ _, false) (10 * Hour) "e2".

Definition concert_row (available : Z) : EventRow.t :=
  EventRow.mk (concert available) "Concert" "" "music" "Jakarta".



(** ** Running the service: proof steps *)

Ltac unfold_calls :=
  unfold GetTicketByID, userRepo_GetByID, eventRepo_GetByID,
    eventRepo_UpdateAvailableTickets, ticketRepo_GetByID, ticketRepo_Create,
    ticketRepo_Update, ticketRepo_Delete, create_ticket, save_ticket,
    delete_ticket, update_available, Transaction, reject_if, call, First,
    bind, ret, fail in *.

Arguments Ticket.BeforeCreate : simpl never.

Ltac case_step :=
  match goal with
  | H : context [if fails ?η ?c then _ else _] |- _ =>
      destruct (fails η c) eqn:?
  | H : context [match ?m !! ?i with _ => _ end] |- _ =>
      destruct (m !! i) eqn:?
  | H : context [if ?b then _ else _] |- _ => destruct b eqn:?
  | H : (_, _) = (_, _) |- _ => inversion H; subst; clear H
  end; simpl in *; try discriminate.

Ltac bool_hyps :=
  unfold Ticket.CanBeCancelled, Time_Before in *;
  repeat match goal with
    | H : negb _ = false |- _ => apply negb_false_iff in H
    | H : negb _ = true |- _ => apply negb_true_iff in H
    | H : bool_decide _ = false |- _ => apply bool_decide_eq_false in H
    | H : bool_decide _ = true |- _ => apply bool_decide_eq_true in H
    | H : (_ <? _) = false |- _ => apply Z.ltb_ge in H
    | H : (_ <? _) = true |- _ => apply Z.ltb_lt in H
    | H : ¬ (_ ≠ _) |- _ => apply dec_stable in H
    end.

Ltac unfold_ecalls :=
  unfold EventService.CreateEvent, EventService.UpdateEvent,
    EventService.DeleteEvent, EventService.GetEventByID,
    EventService.name_must_be_free, EventService.set_if_given,
    EventRepository.GetByName, EventRepository.Create,
    EventRepository.GetByID,
    EventRepository.Update, EventRepository.Delete,
    ereject_if, ecall, ebind, eret, efail in *.

Ltac ecase_step :=
  match goal with
  | H : context [if ev_fails ?η ?c then _ else _] |- _ =>
      destruct (ev_fails η c) eqn:?
  | H : context [match head ?l with _ => _ end] |- _ =>
      destruct (head l) as [[? ?] |] eqn:?
  | H : context [match ?m !! ?i with _ => _ end] |- _ =>
      destruct (m !! i) eqn:?
  | H : context [if ?b then _ else _] |- _ => destruct b eqn:?
  | H : (_, _) = (_, _) |- _ => inversion H; subst; clear H
  end; cbn [fst snd negb] in *; try discriminate.

(** Negating an [int] is exact except at the least value, which wraps to
    itself. *)
Lemma int_neg_opp q : int_min < q ≤ int_max → int_neg q = - q.
Proof.
  unfold int_min, int_max, int_neg, int_wrap. intros Hq.
  rewrite Z.mod_small by lia. lia.
Qed.

Lemma int_neg_min : int_neg int_min = int_min.
Proof. reflexivity. Qed.

Lemma alter_Some {A} (f : A → A) (m : gmap string A) i x :
  m !! i = Some x → alter f i m = <[i := f x]> m.
Proof.
  intros H. apply map_eq; intros j.
  rewrite lookup_alter, lookup_insert.
  case_decide; subst; [by rewrite H | reflexivity].
Qed.

Lemma Ticket_BeforeCreate_new uuid now userID eventID quantity price :
  Ticket.BeforeCreate uuid now
    (Ticket.mk EmptyString userID eventID quantity price TicketStatusActive
       now)
  = Ticket.mk uuid userID eventID quantity price TicketStatusActive now.
Proof.
  unfold Ticket.BeforeCreate. simpl.
  destruct (Time_IsZero now); reflexivity.
Qed.

(** The two outcomes of a purchase: nothing is written and an error is
    returned, or the ticket and the new count are committed; in the second
    case the answer is the ticket, unless reading it again fails. *)
Lemma BuyTicket_cases η userID req db db' r :
  BuyTicket η userID req db = (db', r) →
  let eventID := BuyTicketRequest.EventID req in
  let quantity := BuyTicketRequest.Quantity req in
  (db' = db ∧ ∃ e, r = Err e)
  ∨ ∃ user event ticket,
      users db !! userID = Some user ∧ User.IsActive user = true
      ∧ events db !! eventID = Some event
      ∧ Event.IsAvailable event = true
      ∧ quantity ≤ Event.Available event
      ∧ Time_Add (now η) Hour ≤ Event.EventDate event
      ∧ tickets db !! uuid η = None
      ∧ ticket = Ticket.mk (uuid η) userID eventID quantity
                   (Event.Price event * float64_of_int quantity)%float
                   TicketStatusActive (now η)
      ∧ db' = mkDB (users db)
                (<[eventID := Event.set_Available (λ a, a - quantity) event]>
                   (events db))
                (<[uuid η := ticket]> (tickets db))
      ∧ (r = Ok ticket ∧ fails η TicketGetByID = false
         ∨ r = Err (ErrStorage TicketGetByID)
           ∧ fails η TicketGetByID = true).
Proof.
  intros H eventID quantity. unfold BuyTicket in H.
  fold eventID quantity in H. unfold_calls.
  repeat first [ rewrite Ticket_BeforeCreate_new in H; simpl in H
               | rewrite lookup_insert_eq in H; simpl in H
               | case_step ];
    try (left; split; [reflexivity | eexists; reflexivity]).
  all: right; do 3 eexists.
  all: repeat match goal with
         | H : negb ?b = false |- _ =>
             destruct b eqn:?; [clear H | discriminate]
         | H : Time_Before _ _ = false |- _ => apply Z.ltb_ge in H
         | H : (_ <? _) = false |- _ => apply Z.ltb_ge in H
         end.
  all: repeat (split; [first [reflexivity | eassumption | lia] |]).
  all: split; [| auto].
  all: unfold set_events, set_tickets; simpl; f_equal.
  all: by apply alter_Some.
Qed.

(** What a purchase that returns a ticket has checked and written. *)
Lemma BuyTicket_Ok η userID req db db' ticket :
  BuyTicket η userID req db = (db', Ok ticket) →
  let eventID := BuyTicketRequest.EventID req in
  let quantity := BuyTicketRequest.Quantity req in
  ∃ user event,
    users db !! userID = Some user ∧ User.IsActive user = true
    ∧ events db !! eventID = Some event
    ∧ Event.IsAvailable event = true
    ∧ quantity ≤ Event.Available event
    ∧ Time_Add (now η) Hour ≤ Event.EventDate event
    ∧ tickets db !! uuid η = None
    ∧ ticket = Ticket.mk (uuid η) userID eventID quantity
                 (Event.Price event * float64_of_int quantity)%float
                 TicketStatusActive (now η)
    ∧ db' = mkDB (users db)
              (<[eventID := Event.set_Available (λ a, a - quantity) event]>
                 (events db))
              (<[uuid η := ticket]> (tickets db)).
Proof.
  intros H eventID quantity.
  destruct (BuyTicket_cases _ _ _ _ _ _ H)
    as [[_ [e He]] | (user & event & k & Hu & Ha & He & Hav & Hq & Ht & Hf
                       & Hk & Hdb & Hr)];
    [discriminate |].
  destruct Hr as [[Hr _] | [Hr _]]; [| discriminate].
  inversion Hr; subst ticket. exists user, event.
  repeat split; assumption.
Qed.

(** A purchase whose checks pass and whose database calls all succeed. *)
Lemma BuyTicket_run η userID req db user event :
  (∀ c, fails η c = false) →
  users db !! userID = Some user → User.IsActive user = true →
  events db !! BuyTicketRequest.EventID req = Some event →
  Event.IsAvailable event = true →
  BuyTicketRequest.Quantity req ≤ Event.Available event →
  Time_Add (now η) Hour ≤ Event.EventDate event →
  tickets db !! uuid η = None →
  let eventID := BuyTicketRequest.EventID req in
  let quantity := BuyTicketRequest.Quantity req in
  let ticket :=
    Ticket.mk (uuid η) userID eventID quantity
      (Event.Price event * float64_of_int quantity)%float
      TicketStatusActive (now η) in
  BuyTicket η userID req db
  = (mkDB (users db)
       (<[eventID := Event.set_Available (λ a, a - quantity) event]>
          (events db))
       (<[uuid η := ticket]> (tickets db)),
     Ok ticket).
Proof.
  intros Hnf Hu Hact He Hav Hq Ht Hfresh. cbv zeta.
  unfold BuyTicket. unfold_calls.
  rewrite !Hnf, Hu, Hact. simpl. rewrite He, Hav. simpl.
  apply Z.ltb_ge in Hq. rewrite Hq.
  unfold Time_Before. apply Z.ltb_ge in Ht. rewrite Ht.
  rewrite Ticket_BeforeCreate_new. simpl. rewrite Hfresh. simpl.
  rewrite lookup_insert_eq.
  unfold set_events, set_tickets; simpl. f_equal. f_equal.
  by apply alter_Some.
Qed.

(** The two outcomes of a cancellation inside the transaction. *)
Lemma CancelTicket_cases η ticketID userID db db' r :
  CancelTicket η ticketID userID db = (db', r) →
  (db' = db ∧ ∃ e, r = Err e)
  ∨ ∃ ticket event,
      tickets db !! ticketID = Some ticket
      ∧ Ticket.UserID ticket = userID
      ∧ Ticket.Status ticket = TicketStatusActive
      ∧ events db !! Ticket.EventID ticket = Some event
      ∧ Time_Add (now η) (2 * Hour) ≤ Event.EventDate event
      ∧ r = Ok (Ticket.set_Status TicketStatusCancelled ticket)
      ∧ db' = mkDB (users db)
                (<[Ticket.EventID ticket :=
                     Event.set_Available (λ a, a + Ticket.Quantity ticket)
                       event]> (events db))
                (<[Ticket.ID ticket :=
                     Ticket.set_Status TicketStatusCancelled ticket]>
                   (tickets db)).
Proof.
  intros H. unfold CancelTicket in H. unfold_calls.
  repeat case_step;
    try (left; split; [reflexivity | eexists; reflexivity]).
  right. do 2 eexists. bool_hyps.
  repeat (split; [first [reflexivity | eassumption] |]).
  unfold set_events, set_tickets; simpl. f_equal.
  by apply alter_Some.
Qed.


(** The two outcomes of a status update. *)
Lemma UpdateTicketStatus_cases η ticketID req db db' r :
  UpdateTicketStatus η ticketID req db = (db', r) →
  let status := UpdateTicketStatusRequest.Status req in
  (db' = db ∧ ∃ e, r = Err e)
  ∨ ∃ ticket,
      tickets db !! ticketID = Some ticket
      ∧ Ticket.Status ticket ≠ TicketStatusCancelled
      ∧ (status = TicketStatusUsed →
         Ticket.Status ticket = TicketStatusActive)
      ∧ r = Ok (Ticket.set_Status status ticket)
      ∧ db' = set_tickets
                (insert (Ticket.ID ticket) (Ticket.set_Status status ticket))
                db.
Proof.
  intros H status. unfold UpdateTicketStatus in H. fold status in H.
  unfold_calls.
  repeat case_step;
    try (left; split; [reflexivity | eexists; reflexivity]).
  right. eexists. split; [reflexivity |].
  match goal with
  | H : _ && _ = false |- _ => apply andb_false_iff in H as [Hb | Hb]
  end; bool_hyps.
  all: split; [assumption |].
  all: split; [| split; reflexivity].
  all: intros Hused; done.
Qed.

(** ** The capacity held by the ledger *)

Lemma held_insert_None eventID i k (ledger : gmap string Ticket.t) :
  ledger !! i = None →
  held eventID (<[i := k]> ledger) = holds eventID k + held eventID ledger.
Proof.
  intros Hi. unfold held.
  rewrite map_fold_insert_L; [reflexivity | intros; lia | assumption].
Qed.

Lemma held_insert_Some eventID i k k0 (ledger : gmap string Ticket.t) :
  ledger !! i = Some k0 →
  held eventID (<[i := k]> ledger)
  = holds eventID k - holds eventID k0 + held eventID ledger.
Proof.
  intros Hi.
  rewrite <- (insert_delete_eq ledger i k).
  rewrite held_insert_None by apply lookup_delete_eq.
  rewrite <- (insert_delete_id ledger i k0 Hi) at 2.
  rewrite held_insert_None by apply lookup_delete_eq.
  lia.
Qed.

Lemma holds_other eventID k :
  Ticket.EventID k ≠ eventID → holds eventID k = 0.
Proof.
  intros Hne. unfold holds. by rewrite (bool_decide_eq_false_2 _ Hne).
Qed.

Lemma holds_active k :
  Ticket.Status k = TicketStatusActive →
  holds (Ticket.EventID k) k = Ticket.Quantity k.
Proof.
  intros Hs. unfold holds. rewrite Hs.
  by rewrite (bool_decide_eq_true_2 _ eq_refl).
Qed.

Lemma holds_cancelled eventID k :
  holds eventID (Ticket.set_Status TicketStatusCancelled k) = 0.
Proof. unfold holds. simpl. by rewrite andb_false_r. Qed.

(** A purchase keeps the count of every event in step with the ledger,
    whatever the database calls do. *)
Lemma BuyTicket_conserved η userID req db db' r :
  BuyTicket η userID req db = (db', r) → conserved db → conserved db'.
Proof.
  intros H Hc.
  destruct (BuyTicket_cases _ _ _ _ _ _ H)
    as [[-> _] | (user & event & k & _ & _ & He & _ & _ & _ & Hfresh
                   & Hk & -> & _)];
    [assumption |].
  intros id e. simpl. rewrite lookup_insert. case_decide as Hid.
  - intros [= <-]. subst id. rewrite held_insert_None by assumption.
    specialize (Hc _ _ He). simpl.
    replace (holds (BuyTicketRequest.EventID req) k)
      with (BuyTicketRequest.Quantity req); [lia |].
    subst k. symmetry. exact (holds_active (Ticket.mk _ _ _ _ _ _ _) eq_refl).
  - intros Hid'. rewrite held_insert_None by assumption.
    rewrite holds_other by (subst k; simpl; congruence).
    specialize (Hc _ _ Hid'). lia.
Qed.

(** So does a cancellation. *)
Lemma CancelTicket_conserved η ticketID userID db db' r :
  CancelTicket η ticketID userID db = (db', r) →
  keyed db → conserved db → conserved db'.
Proof.
  intros H Hkey Hc.
  destruct (CancelTicket_cases _ _ _ _ _ _ H)
    as [[-> _] | (k & event & Hk & _ & Hs & He & _ & _ & ->)];
    [assumption |].
  rewrite (Hkey _ _ Hk).
  intros id e. simpl. rewrite lookup_insert. case_decide as Hid.
  - intros [= <-]. subst id.
    rewrite (held_insert_Some _ _ _ _ _ Hk), holds_cancelled.
    rewrite (holds_active _ Hs). specialize (Hc _ _ He). simpl. lia.
  - intros Hid'. rewrite (held_insert_Some _ _ _ _ _ Hk), holds_cancelled.
    rewrite holds_other by congruence.
    specialize (Hc _ _ Hid'). lia.
Qed.

(** Rows stay under their own identifier. *)
Lemma BuyTicket_keyed η userID req db db' r :
  BuyTicket η userID req db = (db', r) → keyed db → keyed db'.
Proof.
  intros H Hkey.
  destruct (BuyTicket_cases _ _ _ _ _ _ H)
    as [[-> _] | (user & event & k & _ & _ & _ & _ & _ & _ & _
                   & Hk & -> & _)];
    [assumption |].
  intros id k'. simpl. rewrite lookup_insert. case_decide.
  - intros [= <-]. by subst k.
  - apply Hkey.
Qed.

Lemma CancelTicket_keyed η ticketID userID db db' r :
  CancelTicket η ticketID userID db = (db', r) → keyed db → keyed db'.
Proof.
  intros H Hkey.
  destruct (CancelTicket_cases _ _ _ _ _ _ H)
    as [[-> _] | (k & event & Hk & _ & _ & _ & _ & _ & ->)];
    [assumption |].
  intros id k'. simpl. rewrite lookup_insert. case_decide.
  - intros [= <-]. assumption.
  - apply Hkey.
Qed.

(** A cancellation that returns an error has written nothing. *)
Lemma CancelTicket_error_unchanged η ticketID userID db db' e :
  CancelTicket η ticketID userID db = (db', Err e) → db' = db.
Proof.
  intros H.
  destruct (CancelTicket_cases _ _ _ _ _ _ H)
    as [[-> _] | (k & event & _ & _ & _ & _ & _ & Hr & _)];
    [reflexivity | discriminate].
Qed.

(** A purchase that returns an error has written nothing, unless the
    error is that of reading the ticket again after the commit. *)
Lemma BuyTicket_error_unchanged η userID req db db' e :
  BuyTicket η userID req db = (db', Err e) →
  e ≠ ErrStorage TicketGetByID → db' = db.
Proof.
  intros H Hne.
  destruct (BuyTicket_cases _ _ _ _ _ _ H)
    as [[-> _] | (user & event & k & _ & _ & _ & _ & _ & _ & _ & _ & _
                   & [[Hr _] | [Hr _]])];
    [reflexivity | discriminate | congruence].
Qed.

(** ** Purchase *)

Example buy_B :
  BuyTicket env0 "u1" (BuyTicketRequest.mk "e1" 3) db0
  = (db1, Ok (ticket_B TicketStatusActive)).
Proof. vm_compute. reflexivity. Qed.

(** C3. Boundary purchase: on an active event that starts at least one hour
    from now and has [A > 0] units available, an existing active user who
    buys exactly [A] units gets a ticket and the event is left with 0 units
    available (the database calls succeeding and the drawn identifier being
    new); buying [A + 1] units returns the error "insufficient tickets
    available", of the Conflict class, and leaves the whole database, so the
    count and the ledger, as it was. *)
Theorem C3_boundary_purchase η db userID eventID user event :
  (∀ c, fails η c = false) →
  users db !! userID = Some user → User.IsActive user = true →
  events db !! eventID = Some event →
  Event.Status event = EventStatusActive →
  0 < Event.Available event →
  Time_Add (now η) Hour ≤ Event.EventDate event →
  tickets db !! uuid η = None →
  let A := Event.Available event in
  (∃ db' ticket,
     BuyTicket η userID (BuyTicketRequest.mk eventID A) db = (db', Ok ticket)
     ∧ Event.Available <$> events db' !! eventID = Some 0)
  ∧ BuyTicket η userID (BuyTicketRequest.mk eventID (A + 1)) db
    = (db, Err ErrInsufficientTickets)
  ∧ spec_kind ErrInsufficientTickets = Conflict.
Proof.
  intros Hnf Hu Hact He Hs HA Ht Hfresh A.
  assert (Hav : Event.IsAvailable event = true).
  { unfold Event.IsAvailable. rewrite (bool_decide_eq_true_2 _ Hs).
    apply Z.ltb_lt in HA. by rewrite HA. }
  split; [| split; [| reflexivity]].
  - do 2 eexists. split.
    + apply (BuyTicket_run η userID (BuyTicketRequest.mk eventID A) db
               user event); simpl; try assumption. lia.
    + simpl. rewrite lookup_insert_eq. simpl. f_equal. lia.
  - unfold BuyTicket. unfold_calls. simpl.
    rewrite !Hnf, Hu, Hact. simpl. rewrite He, Hav. simpl.
    assert (Hlt : (Event.Available event <? A + 1) = true)
      by (apply Z.ltb_lt; lia).
    by rewrite Hlt.
Qed.

Lemma C3_boundary_purchase_witness :
  (∃ db' ticket,
     BuyTicket env0 "u1" (BuyTicketRequest.mk "e1" 10) db0 = (db', Ok ticket)
     ∧ Event.Available <$> events db' !! "e1"%string = Some 0)
  ∧ BuyTicket env0 "u1" (BuyTicketRequest.mk "e1" (10 + 1)) db0
    = (db0, Err ErrInsufficientTickets)
  ∧ spec_kind ErrInsufficientTickets = Conflict.
Proof.
  apply (C3_boundary_purchase env0 db0 "u1" "e1" alice (concert 10));
    first [reflexivity | vm_compute; congruence].
Defined.



(** ** Purchase, then cancellation *)




(** ** Cancellation *)

(** C8. The checks of a cancellation, in their order, the reads of the
    database succeeding: a ticket that does not exist gives "record not
    found" (NotFound); else a ticket of another user gives "you can only
    cancel your own tickets" (Forbidden), whatever its status; else a ticket
    that is not active gives "ticket cannot be cancelled" (InvalidState);
    else an event less than two hours away gives "cannot cancel tickets
    within 2 hours of event start" (InvalidState).  Each time the database
    is returned as it was, so neither the status of the ticket nor the
    count of the event has changed: a ticket already cancelled is refused
    and its quantity is not added a second time. *)
Theorem C8_cancel_checks η ticketID userID db :
  fails η TicketFirst = false →
  (tickets db !! ticketID = None →
   CancelTicket η ticketID userID db = (db, Err ErrRecordNotFound)
   ∧ spec_kind ErrRecordNotFound = NotFound)
  ∧ (∀ ticket,
       tickets db !! ticketID = Some ticket →
       Ticket.UserID ticket ≠ userID →
       CancelTicket η ticketID userID db = (db, Err ErrNotOwner)
       ∧ spec_kind ErrNotOwner = Forbidden)
  ∧ (∀ ticket,
       tickets db !! ticketID = Some ticket →
       Ticket.UserID ticket = userID →
       Ticket.Status ticket ≠ TicketStatusActive →
       CancelTicket η ticketID userID db = (db, Err ErrNotCancellable)
       ∧ spec_kind ErrNotCancellable = InvalidState)
  ∧ (∀ ticket event,
       tickets db !! ticketID = Some ticket →
       Ticket.UserID ticket = userID →
       Ticket.Status ticket = TicketStatusActive →
       fails η EventFirst = false →
       events db !! Ticket.EventID ticket = Some event →
       Event.EventDate event < Time_Add (now η) (2 * Hour) →
       CancelTicket η ticketID userID db = (db, Err ErrCancelTooLate)
       ∧ spec_kind ErrCancelTooLate = InvalidState).
Proof.
  intros Hf. unfold CancelTicket. unfold_calls. rewrite Hf.
  split; [| split; [| split]].
  - intros ->. split; reflexivity.
  - intros ticket -> Hu. rewrite (bool_decide_eq_true_2 _ Hu).
    split; reflexivity.
  - intros ticket -> Hu Hs.
    rewrite (bool_decide_eq_false_2 _) by (intros Hne; by apply Hne).
    unfold Ticket.CanBeCancelled. rewrite (bool_decide_eq_false_2 _ Hs).
    split; reflexivity.
  - intros ticket event -> Hu Hs Hf' He Ht.
    rewrite (bool_decide_eq_false_2 _) by (intros Hne; by apply Hne).
    unfold Ticket.CanBeCancelled. rewrite (bool_decide_eq_true_2 _ Hs).
    simpl. rewrite Hf', He. unfold Time_Before.
    apply Z.ltb_lt in Ht. rewrite Ht. split; reflexivity.
Qed.

Lemma C8_cancel_checks_witness :
  CancelTicket env0 "t1" "u1" (db_B 7 TicketStatusCancelled)
  = (db_B 7 TicketStatusCancelled, Err ErrNotCancellable)
  ∧ spec_kind ErrNotCancellable = InvalidState.
Proof.
  apply (proj1 (proj2 (proj2
           (C8_cancel_checks env0 "t1" "u1" (db_B 7 TicketStatusCancelled)
              eq_refl)))
           (ticket_B TicketStatusCancelled));
    [reflexivity | reflexivity | discriminate].
Defined.

(** ** Status update *)

(** The two versions of the service update a status in the same way. *)
Lemma Unlocked_UpdateTicketStatus_same :
  Unlocked.UpdateTicketStatus = UpdateTicketStatus.
Proof. reflexivity. Qed.

(** C9. A status update never changes the events table, whether it returns
    a ticket or an error: the available count of every event is the same
    before and after the call, in both versions of the service. *)
Theorem C9_status_update_frame η ticketID req db :
  events (fst (UpdateTicketStatus η ticketID req db)) = events db
  ∧ events (fst (Unlocked.UpdateTicketStatus η ticketID req db)) = events db.
Proof.
  rewrite Unlocked_UpdateTicketStatus_same.
  assert (H : events (fst (UpdateTicketStatus η ticketID req db))
              = events db).
  { destruct (UpdateTicketStatus η ticketID req db) as [db' r] eqn:E.
    destruct (UpdateTicketStatus_cases _ _ _ _ _ _ E)
      as [[-> _] | (k & _ & _ & _ & _ & ->)]; reflexivity. }
  split; exact H.
Qed.

(** ** The capacity primitive *)

Lemma alter_None {A} (f : A → A) (m : gmap string A) i :
  m !! i = None → alter f i m = m.
Proof.
  intros H. apply map_eq; intros j. rewrite lookup_alter.
  case_decide; subst; [by rewrite H | reflexivity].
Qed.

(** C10. [UpdateAvailableTickets(eventID, quantity)], when the database
    call itself succeeds, returns no error and replaces [available] by
    [available - quantity] in the row of that identifier, for every
    quantity and every count: nothing keeps the result at or above 0 or at
    or below the capacity.  When no event has that identifier it still
    returns no error, and the database is unchanged.  On an event of
    capacity 10 with 10 available, quantity 11 leaves -1 available and
    quantity -1 leaves 11 available. *)
Theorem C10_UpdateAvailableTickets_unchecked :
  (∀ η eventID quantity db,
     fails η EventUpdateAvailableTickets = false →
     ∃ db',
       eventRepo_UpdateAvailableTickets η eventID quantity db = (db', Ok tt)
       ∧ users db' = users db ∧ tickets db' = tickets db
       ∧ (∀ id, id ≠ eventID → events db' !! id = events db !! id)
       ∧ (∀ e, events db !! eventID = Some e →
            events db' !! eventID
            = Some (Event.set_Available (λ a, a - quantity) e))
       ∧ (events db !! eventID = None → db' = db))
  ∧ (∃ db',
       eventRepo_UpdateAvailableTickets env0 "e1" 11 db0 = (db', Ok tt)
       ∧ Event.Available <$> events db' !! "e1"%string = Some (-1))
  ∧ (∃ db',
       eventRepo_UpdateAvailableTickets env0 "e1" (-1) db0 = (db', Ok tt)
       ∧ Event.Available <$> events db' !! "e1"%string = Some 11
       ∧ Event.Capacity <$> events db' !! "e1"%string = Some 10).
Proof.
  split; [| split].
  - intros η eventID quantity db Hf.
    unfold eventRepo_UpdateAvailableTickets. unfold_calls. rewrite Hf.
    eexists. split; [reflexivity |]. simpl.
    split; [reflexivity |]. split; [reflexivity |].
    split; [| split].
    + intros id Hne. by rewrite lookup_alter_ne.
    + intros e He. by rewrite lookup_alter_eq, He.
    + intros Hnone. unfold set_events. rewrite (alter_None _ _ _ Hnone).
      by destruct db.
  - eexists. split; vm_compute; reflexivity.
  - eexists. split; [| split]; vm_compute; reflexivity.
Qed.

Lemma C10_UpdateAvailableTickets_unchecked_witness :
  ∃ db',
    eventRepo_UpdateAvailableTickets env0 "e2" 5 db0 = (db', Ok tt)
    ∧ users db' = users db0 ∧ tickets db' = tickets db0
    ∧ (∀ id, id ≠ "e2"%string → events db' !! id = events db0 !! id)
    ∧ (∀ e, events db0 !! "e2"%string = Some e →
         events db' !! "e2"%string
         = Some (Event.set_Available (λ a, a - 5) e))
    ∧ (events db0 !! "e2"%string = None → db' = db0).
Proof.
  apply (proj1 C10_UpdateAvailableTickets_unchecked env0 "e2" 5 db0).
  reflexivity.
Defined.

(** ** The status update against the transition table *)

(** C7, as the specification states it, fails: a used ticket can be moved
    to cancelled, a transition the table of the specification excludes; the
    call returns the ticket and the stored row has changed. *)
Lemma C7_used_to_cancelled_succeeds :
  UpdateTicketStatus env0 "t1"
    (UpdateTicketStatusRequest.mk TicketStatusCancelled)
    (db_B 7 TicketStatusUsed)
  = (db_B 7 TicketStatusCancelled, Ok (ticket_B TicketStatusCancelled))
  ∧ spec_allowed_transition TicketStatusUsed TicketStatusCancelled = false
  ∧ tickets (db_B 7 TicketStatusUsed) !! "t1"%string
    ≠ tickets (db_B 7 TicketStatusCancelled) !! "t1"%string.
Proof.
  split; [vm_compute; reflexivity |].
  split; [reflexivity |]. vm_compute. congruence.
Qed.

(** C7, amended. On an existing ticket, the database calls succeeding, a
    status update returns an error of the InvalidState class and leaves the
    database as it was in two cases: the ticket is already cancelled
    ("cannot update cancelled ticket"), or the status asked for is used and
    the ticket is not active ("can only mark active tickets as used").  In
    every other case it stores the status asked for and returns the ticket
    with it. *)
Theorem C7_status_update_table η ticketID req db ticket :
  fails η TicketGetByID = false →
  fails η TicketUpdate = false →
  tickets db !! ticketID = Some ticket →
  let from := Ticket.Status ticket in
  let to := UpdateTicketStatusRequest.Status req in
  (from = TicketStatusCancelled →
   UpdateTicketStatus η ticketID req db = (db, Err ErrCannotUpdateCancelled)
   ∧ spec_kind ErrCannotUpdateCancelled = InvalidState)
  ∧ (from ≠ TicketStatusCancelled →
     to = TicketStatusUsed → from ≠ TicketStatusActive →
     UpdateTicketStatus η ticketID req db = (db, Err ErrOnlyActiveUsed)
     ∧ spec_kind ErrOnlyActiveUsed = InvalidState)
  ∧ (from ≠ TicketStatusCancelled →
     (to = TicketStatusUsed → from = TicketStatusActive) →
     UpdateTicketStatus η ticketID req db
     = (set_tickets
          (insert (Ticket.ID ticket) (Ticket.set_Status to ticket)) db,
        Ok (Ticket.set_Status to ticket))).
Proof.
  intros Hf1 Hf2 Hk. cbv zeta.
  unfold UpdateTicketStatus. unfold_calls. rewrite Hf1, Hf2, Hk.
  split; [| split].
  - intros Hc. rewrite (bool_decide_eq_true_2 _ Hc). split; reflexivity.
  - intros Hc Hto Hfrom. rewrite (bool_decide_eq_false_2 _ Hc).
    rewrite (bool_decide_eq_true_2 _ Hto), (bool_decide_eq_true_2 _ Hfrom).
    split; reflexivity.
  - intros Hc Himp. rewrite (bool_decide_eq_false_2 _ Hc).
    destruct (decide (UpdateTicketStatusRequest.Status req
                      = TicketStatusUsed)) as [Hto | Hto].
    + rewrite (bool_decide_eq_true_2 _ Hto).
      rewrite (bool_decide_eq_false_2 _)
        by (intros Hne; apply Hne; by apply Himp).
      reflexivity.
    + rewrite (bool_decide_eq_false_2 _ Hto). reflexivity.
Qed.

Lemma C7_status_update_table_witness :
  UpdateTicketStatus env0 "t1"
    (UpdateTicketStatusRequest.mk TicketStatusCancelled)
    (db_B 7 TicketStatusExpired)
  = (set_tickets
       (insert "t1"%string (ticket_B TicketStatusCancelled))
       (db_B 7 TicketStatusExpired),
     Ok (ticket_B TicketStatusCancelled)).
Proof.
  apply (proj2 (proj2
           (C7_status_update_table env0 "t1"
              (UpdateTicketStatusRequest.mk TicketStatusCancelled)
              (db_B 7 TicketStatusExpired) (ticket_B TicketStatusExpired)
              eq_refl eq_refl eq_refl)));
    discriminate.
Defined.

(** ** Conservation of capacity *)

(** Marking an active ticket as used keeps the count in step with the
    ledger. *)
Lemma UpdateTicketStatus_used_conserved η ticketID db db' r :
  UpdateTicketStatus η ticketID
    (UpdateTicketStatusRequest.mk TicketStatusUsed) db = (db', r) →
  keyed db → conserved db → conserved db'.
Proof.
  intros H Hkey Hc.
  destruct (UpdateTicketStatus_cases _ _ _ _ _ _ H)
    as [[-> _] | (k & Hk & _ & Hact & _ & ->)];
    [assumption |].
  specialize (Hact eq_refl). rewrite (Hkey _ _ Hk).
  intros id e He. simpl in *.
  rewrite (held_insert_Some _ _ _ _ _ Hk).
  replace (holds id (Ticket.set_Status TicketStatusUsed k))
    with (holds id k); [specialize (Hc _ _ He); lia |].
  unfold holds. simpl. rewrite Hact. reflexivity.
Qed.

Lemma conserved_db0 : conserved db0.
Proof.
  intros id e He. simpl in He.
  apply lookup_singleton_Some in He as [<- <-]. reflexivity.
Qed.

Lemma conserved_db1 : conserved db1.
Proof.
  intros id e He. simpl in He.
  apply lookup_singleton_Some in He as [<- <-]. reflexivity.
Qed.

(** C1, on the code: starting from scenario B, in which 10 = 7 + 3 holds
    after the purchase, the status update moves the active ticket to
    cancelled and leaves 7 units available; the ledger then holds 0 units
    of the event, and 7 + 0 is not the capacity 10. *)
Theorem C1_status_update_loses_capacity :
  conserved db0
  ∧ BuyTicket env0 "u1" (BuyTicketRequest.mk "e1" 3) db0
    = (db1, Ok (ticket_B TicketStatusActive))
  ∧ conserved db1
  ∧ UpdateTicketStatus env0 "t1"
      (UpdateTicketStatusRequest.mk TicketStatusCancelled) db1
    = (db_B 7 TicketStatusCancelled, Ok (ticket_B TicketStatusCancelled))
  ∧ events (db_B 7 TicketStatusCancelled) !! "e1"%string = Some (concert 7)
  ∧ Event.Available (concert 7) = 7
  ∧ held "e1" (tickets (db_B 7 TicketStatusCancelled)) = 0
  ∧ Event.Capacity (concert 7) = 10
  ∧ ¬ conserved (db_B 7 TicketStatusCancelled).
Proof.
  split; [exact conserved_db0 |].
  split; [vm_compute; reflexivity |].
  split; [exact conserved_db1 |].
  split; [vm_compute; reflexivity |].
  repeat (split; [reflexivity |]).
  intros Hc. specialize (Hc "e1"%string (concert 7) eq_refl).
  vm_compute in Hc. discriminate.
Qed.

(** ** Errors and what they leave behind *)

(** C6, on the code.  With transactions: when reading the ticket again
    after the commit fails, the purchase returns that error although the
    ticket and the new count are committed.  Without transactions: when the
    update of the count fails and the deletion that should undo the ticket
    fails too, the ticket stays in the ledger with the count untouched; when
    the update of the count fails in a cancellation and writing the status
    back fails too, the ticket stays cancelled with the count untouched.  In
    these two cases the error of the undoing call is dropped. *)
Theorem C6_errors_with_state_changed :
  BuyTicket (env_failing [TicketGetByID]) "u1" (BuyTicketRequest.mk "e1" 3)
    db0
  = (db1, Err (ErrStorage TicketGetByID))
  ∧ db1 ≠ db0
  ∧ Unlocked.BuyTicket (env_failing [EventUpdateAvailableTickets; TicketDelete])
      "u1" (BuyTicketRequest.mk "e1" 3) db0
    = (db_B 10 TicketStatusActive, Err (ErrStorage EventUpdateAvailableTickets))
  ∧ Unlocked.CancelTicket
      (env_failing [EventUpdateAvailableTickets; TicketUpdateRevert])
      "t1" "u1" db1
    = (db_B 7 TicketStatusCancelled,
       Err (ErrStorage EventUpdateAvailableTickets)).
Proof.
  split; [vm_compute; reflexivity |].
  split; [intros H; apply (f_equal tickets) in H;
          apply (f_equal (λ m, m !! "t1"%string)) in H;
          vm_compute in H; discriminate |].
  split; vm_compute; reflexivity.
Qed.

(** ** Purchases one after the other *)

(** X10. When purchases on one event run in turn, and reading a ticket again
    never fails, the quantities of the purchases that returned a ticket add
    up to at most the count the event started with, and the count left is
    the start count minus that sum, and is not negative. *)
Lemma buy_in_turn_no_oversell eventID calls :
  ∀ db event db' sold,
    Forall (λ call : Env * string * BuyTicketRequest.t,
              fails call.1.1 TicketGetByID = false
              ∧ BuyTicketRequest.EventID call.2 = eventID) calls →
    events db !! eventID = Some event →
    0 ≤ Event.Available event →
    buy_in_turn calls db = (db', sold) →
    ∃ event',
      events db' !! eventID = Some event'
      ∧ Event.Available event' = Event.Available event - sum_Z sold
      ∧ 0 ≤ Event.Available event'
      ∧ sum_Z sold ≤ Event.Available event.
Proof.
  induction calls as [| [[η userID] req] rest IH];
    intros db event db' sold Hall He HA Hrun; simpl in Hrun.
  - injection Hrun as <- <-. exists event. simpl.
    repeat split; first [assumption | lia].
  - apply Forall_cons in Hall as [[Hf Hid] Hall]. simpl in Hf, Hid.
    destruct (BuyTicket η userID req db) as [db1' r] eqn:Hbuy.
    pose proof (BuyTicket_cases _ _ _ _ _ _ Hbuy) as Hc. cbv zeta in Hc.
    rewrite Hid in Hc.
    destruct Hc
      as [[-> [e ->]] | (user & ev & k & _ & _ & He' & _ & Hq & _ & _ & _
                         & -> & [[-> _] | [_ Hbad]])];
      [by eapply IH | | congruence].
    rewrite He in He'. injection He' as <-.
    destruct (buy_in_turn rest _) as [db2 sold'] eqn:Hrest.
    injection Hrun as <- <-.
    eapply IH in Hrest as (event' & He2 & Hav & Hpos & Hle);
      [| assumption | simpl; apply lookup_insert_eq | simpl; lia].
    exists event'. simpl in *.
    repeat split; first [assumption | lia].
Qed.

(** Scenario A of the specification, with the two purchases in turn: the
    first gets its 6 units for 300, the second is refused, 4 units are
    left. *)
Example buy_in_turn_scenario_A :
  BuyTicket env0 "u1" (BuyTicketRequest.mk "e1" 6) db0
  = (mkDB {[ "u1"%string := alice ]} {[ "e1"%string := concert 4 ]}
       {[ "t1"%string :=
            Ticket.mk "t1" "u1" "e1" 6 300 TicketStatusActive (10 * Hour) ]},
     Ok (Ticket.mk "t1" "u1" "e1" 6 300 TicketStatusActive (10 * Hour)))
  ∧ ∃ db',
      buy_in_turn
        [ (env0, "u1"%string, BuyTicketRequest.mk "e1" 6);
          (mkEnv no_fault (10 * Hour) "t2", "u1"%string,
           BuyTicketRequest.mk "e1" 6) ] db0
      = (db', [6])
      ∧ Event.Available <$> events db' !! "e1"%string = Some 4.
Proof.
  split; [vm_compute; reflexivity |].
  eexists. split; vm_compute; reflexivity.
Qed.

(** ** The purchase without transaction, interleaved *)

Lemma Unlocked_BuyTicket_parts η userID req db :
  Unlocked.BuyTicket η userID req db
  = bind (Unlocked.BuyTicket_checks η userID req)
         (Unlocked.BuyTicket_writes η userID req) db.
Proof.
  unfold Unlocked.BuyTicket, Unlocked.BuyTicket_checks,
    Unlocked.BuyTicket_writes.
  unfold userRepo_GetByID, eventRepo_GetByID, reject_if, call, First, bind,
    ret, fail.
  repeat match goal with
         | |- context [if ?b then _ else _] => destruct b
         | |- context [match ?m !! ?i with _ => _ end] => destruct (m !! i)
         end; reflexivity.
Qed.

(** Scenario A without transaction: when both purchases of 6 units have
    done their checks on 10 available units before either writes, both
    return a ticket and the event is left with -2 units available. *)
Example Unlocked_interleaved_purchases_oversell :
  let ηA := mkEnv no_fault (10 * Hour) "t1" in
  let ηB := mkEnv no_fault (10 * Hour) "t2" in
  let req := BuyTicketRequest.mk "e1" 6 in
  ∃ dbA dbB eventA eventB ticketA ticketB db2 db3,
    Unlocked.BuyTicket_checks ηA "u1" req db0 = (dbA, Ok eventA)
    ∧ Unlocked.BuyTicket_checks ηB "u1" req dbA = (dbB, Ok eventB)
    ∧ Unlocked.BuyTicket_writes ηA "u1" req eventA dbB = (db2, Ok ticketA)
    ∧ Unlocked.BuyTicket_writes ηB "u1" req eventB db2 = (db3, Ok ticketB)
    ∧ Event.Available <$> events db3 !! "e1"%string = Some (-2)
    ∧ held "e1" (tickets db3) = 12.
Proof.
  cbv zeta. do 8 eexists.
  split; [vm_compute; reflexivity |].
  split; [vm_compute; reflexivity |].
  split; [vm_compute; reflexivity |].
  split; [vm_compute; reflexivity |].
  split; vm_compute; reflexivity.
Qed.

(** ** What the calls keep, over any number of calls *)

Lemma UpdateTicketStatus_keyed η ticketID req db db' r :
  UpdateTicketStatus η ticketID req db = (db', r) → keyed db → keyed db'.
Proof.
  intros H Hkey.
  destruct (UpdateTicketStatus_cases _ _ _ _ _ _ H)
    as [[-> _] | (k & Hk & _ & _ & _ & ->)];
    [assumption |].
  intros id k'. simpl. rewrite lookup_insert. case_decide.
  - intros [= <-]. assumption.
  - apply Hkey.
Qed.

Lemma run_call_keyed c db : keyed db → keyed (run_call c db).
Proof.
  intros Hkey. destruct c as [η userID req | η ticketID userID | η ticketID];
    simpl.
  - destruct (BuyTicket η userID req db) as [db' r] eqn:E.
    by eapply BuyTicket_keyed.
  - destruct (CancelTicket η ticketID userID db) as [db' r] eqn:E.
    by eapply CancelTicket_keyed.
  - destruct (UpdateTicketStatus η ticketID _ db) as [db' r] eqn:E.
    by eapply UpdateTicketStatus_keyed.
Qed.

Lemma run_call_conserved c db :
  keyed db → conserved db → conserved (run_call c db).
Proof.
  intros Hkey Hc.
  destruct c as [η userID req | η ticketID userID | η ticketID]; simpl.
  - destruct (BuyTicket η userID req db) as [db' r] eqn:E.
    by eapply BuyTicket_conserved.
  - destruct (CancelTicket η ticketID userID db) as [db' r] eqn:E.
    by eapply CancelTicket_conserved.
  - destruct (UpdateTicketStatus η ticketID _ db) as [db' r] eqn:E.
    by eapply UpdateTicketStatus_used_conserved.
Qed.


Lemma keyed_db0 : keyed db0.
Proof. intros id k Hk. simpl in Hk. by rewrite lookup_empty in Hk. Qed.


Lemma held_nonneg eventID (ledger : gmap string Ticket.t) :
  (∀ id k, ledger !! id = Some k → 0 ≤ Ticket.Quantity k) →
  0 ≤ held eventID ledger.
Proof.
  unfold held.
  apply (map_fold_weak_ind
           (λ r (m : gmap string Ticket.t),
              (∀ id k, m !! id = Some k → 0 ≤ Ticket.Quantity k) → 0 ≤ r)).
  - intros _. lia.
  - intros i k m r Hi IH Hall.
    assert (0 ≤ r).
    { apply IH. intros id k' Hk'. apply (Hall id).
      rewrite lookup_insert_ne; [assumption | congruence]. }
    assert (0 ≤ Ticket.Quantity k)
      by (apply (Hall i); apply lookup_insert_eq).
    unfold holds. destruct (_ && _); lia.
Qed.

Lemma run_call_nonneg c db :
  valid_call c → nonneg_ledger db → nonneg_stock db →
  nonneg_ledger (run_call c db) ∧ nonneg_stock (run_call c db).
Proof.
  intros Hv Hl Hs.
  destruct c as [η userID req | η ticketID userID | η ticketID]; simpl in *.
  - destruct (BuyTicket η userID req db) as [db' r] eqn:E. simpl.
    pose proof (BuyTicket_cases _ _ _ _ _ _ E) as Hc. cbv zeta in Hc.
    destruct Hc
      as [[-> _] | (user & event & k & _ & _ & He & _ & Hq & _ & _ & Hk
                     & -> & _)];
      [split; assumption |].
    split.
    + intros id k'. simpl. rewrite lookup_insert. case_decide.
      * intros [= <-]. subst k. simpl. lia.
      * apply Hl.
    + intros id e. simpl. rewrite lookup_insert. case_decide.
      * intros [= <-]. simpl. lia.
      * apply Hs.
  - destruct (CancelTicket η ticketID userID db) as [db' r] eqn:E. simpl.
    destruct (CancelTicket_cases _ _ _ _ _ _ E)
      as [[-> _] | (k & event & Hk & _ & _ & He & _ & _ & ->)];
      [split; assumption |].
    split.
    + intros id k'. simpl. rewrite lookup_insert. case_decide.
      * intros [= <-]. simpl. by apply (Hl ticketID).
      * apply Hl.
    + intros id e. simpl. rewrite lookup_insert. case_decide.
      * intros [= <-]. simpl.
        specialize (Hl _ _ Hk). specialize (Hs _ _ He). lia.
      * apply Hs.
  - destruct (UpdateTicketStatus η ticketID _ db) as [db' r] eqn:E. simpl.
    destruct (UpdateTicketStatus_cases _ _ _ _ _ _ E)
      as [[-> _] | (k & Hk & _ & _ & _ & ->)];
      [split; assumption |].
    split; [| exact Hs].
    intros id k'. simpl. rewrite lookup_insert. case_decide.
    + intros [= <-]. simpl. by apply (Hl ticketID).
    + apply Hl.
Qed.

(** X2. The count of every event stays between 0 and its capacity over any
    sequence of purchases of at least one unit, cancellations by users and
    markings as used: from a database that conserves capacity, stores rows
    under their identifiers and has no negative quantity or count, every
    event of every database reached has [0 ≤ available ≤ capacity]. *)
Theorem X2_count_stays_within_capacity cs db :
  Forall valid_call cs →
  keyed db → conserved db → nonneg_ledger db → nonneg_stock db →
  ∀ id e, events (run_calls cs db) !! id = Some e →
    0 ≤ Event.Available e ≤ Event.Capacity e.
Proof.
  intros Hv Hkey Hc Hl Hs.
  assert (Hinv : keyed (run_calls cs db) ∧ conserved (run_calls cs db)
                 ∧ nonneg_ledger (run_calls cs db)
                 ∧ nonneg_stock (run_calls cs db)).
  { revert db Hkey Hc Hl Hs.
    induction Hv as [| c cs Hvc Hvcs IH]; intros db Hkey Hc Hl Hs; simpl.
    - repeat split; assumption.
    - destruct (run_call_nonneg c db Hvc Hl Hs) as [Hl' Hs'].
      apply IH; [by apply run_call_keyed | by apply run_call_conserved
                | assumption | assumption]. }
  destruct Hinv as (_ & Hc' & Hl' & Hs').
  intros id e He. split; [by apply (Hs' id) |].
  specialize (Hc' _ _ He).
  pose proof (held_nonneg id (tickets (run_calls cs db)) Hl'). lia.
Qed.

Lemma X2_count_stays_within_capacity_witness :
  0 ≤ Event.Available (concert 10) ≤ Event.Capacity (concert 10).
Proof.
  apply (X2_count_stays_within_capacity
           [CallBuyTicket env0 "u1" (BuyTicketRequest.mk "e1" 3);
            CallCancelTicket env0 "t1" "u1"] db0)
    with (id := "e1"%string);
    [ repeat constructor; simpl; lia
    | exact keyed_db0 | exact conserved_db0
    | intros id k Hk; simpl in Hk; by rewrite lookup_empty in Hk
    | intros id e He; simpl in He;
      apply lookup_singleton_Some in He as [_ <-]; simpl; lia
    | vm_compute; reflexivity ].
Defined.

(** ** The checks of a purchase *)

(** X3. The checks of a purchase, in their order, the reads of the database
    succeeding: an unknown user gives "record not found"; else a user who is
    not active gives "user account is not active", whether or not the event
    exists; else an unknown event gives "record not found"; else an event
    that is not active or has no unit left gives "event is not available
    for booking", whatever the quantity; else a quantity above the count
    gives "insufficient tickets available"; else an event less than one
    hour away gives "cannot purchase tickets for events starting within an
    hour".  Each time the database is returned as it was. *)
Theorem X3_purchase_checks η userID req db :
  fails η UserGetByID = false →
  let eventID := BuyTicketRequest.EventID req in
  let quantity := BuyTicketRequest.Quantity req in
  (users db !! userID = None →
   BuyTicket η userID req db = (db, Err ErrRecordNotFound))
  ∧ (∀ user,
       users db !! userID = Some user → User.IsActive user = false →
       BuyTicket η userID req db = (db, Err ErrUserNotActive))
  ∧ (∀ user,
       users db !! userID = Some user → User.IsActive user = true →
       fails η EventFirst = false →
       (events db !! eventID = None →
        BuyTicket η userID req db = (db, Err ErrRecordNotFound))
       ∧ (∀ event,
            events db !! eventID = Some event →
            (Event.IsAvailable event = false →
             BuyTicket η userID req db = (db, Err ErrEventNotAvailable))
            ∧ (Event.IsAvailable event = true →
               Event.Available event < quantity →
               BuyTicket η userID req db
               = (db, Err ErrInsufficientTickets))
            ∧ (Event.IsAvailable event = true →
               quantity ≤ Event.Available event →
               Event.EventDate event < Time_Add (now η) Hour →
               BuyTicket η userID req db = (db, Err ErrPurchaseTooLate)))).
Proof.
  intros Hf. cbv zeta. unfold BuyTicket. unfold_calls. rewrite Hf.
  split; [| split].
  - by intros ->.
  - by intros user -> ->.
  - intros user -> -> Hf'. simpl. rewrite Hf'. split.
    + by intros ->.
    + intros event ->. split; [| split].
      * by intros ->.
      * intros -> Hlt. simpl. apply Z.ltb_lt in Hlt. by rewrite Hlt.
      * intros -> Hle Hlate. simpl.
        apply Z.ltb_ge in Hle. rewrite Hle.
        unfold Time_Before. apply Z.ltb_lt in Hlate. by rewrite Hlate.
Qed.

Lemma X3_purchase_checks_witness :
  BuyTicket env0 "u1" (BuyTicketRequest.mk "e1" 1)
    (mkDB {[ "u1"%string := alice ]} {[ "e1"%string := concert 0 ]} ∅)
  = (mkDB {[ "u1"%string := alice ]} {[ "e1"%string := concert 0 ]} ∅,
     Err ErrEventNotAvailable).
Proof.
  refine (proj1 (proj2 (proj2 (proj2
            (X3_purchase_checks env0 "u1" (BuyTicketRequest.mk "e1" 1)
               (mkDB {[ "u1"%string := alice ]}
                     {[ "e1"%string := concert 0 ]} ∅) _))
            alice _ _ _) (concert 0) _) _);
    reflexivity.
Defined.



(** ** What a call leaves untouched *)

(** X5. Frame of a purchase, for every outcome: the users are unchanged; no
    event is added or removed, every event but the one asked for is
    unchanged, and that one changes in its [available] column at most; the
    tickets already in the ledger are unchanged, and the only row that can
    be new is the one under the identifier drawn for the purchase. *)
Theorem X5_purchase_frame η userID req db :
  let db' := fst (BuyTicket η userID req db) in
  let eventID := BuyTicketRequest.EventID req in
  users db' = users db
  ∧ (∀ id, id ≠ eventID → events db' !! id = events db !! id)
  ∧ (∀ id, events db' !! id = None ↔ events db !! id = None)
  ∧ (∀ e e',
       events db !! eventID = Some e → events db' !! eventID = Some e' →
       e' = Event.set_Available (λ _, Event.Available e') e)
  ∧ (∀ id k, tickets db !! id = Some k → tickets db' !! id = Some k)
  ∧ (∀ id, id ≠ uuid η → tickets db' !! id = tickets db !! id).
Proof.
  cbv zeta. destruct (BuyTicket η userID req db) as [db' r] eqn:E. simpl.
  pose proof (BuyTicket_cases _ _ _ _ _ _ E) as Hc. cbv zeta in Hc.
  destruct Hc
    as [[-> _] | (user & event & k & _ & _ & He & _ & _ & _ & Hfresh & _
                   & -> & _)].
  - repeat split; try done.
    intros e e' He He'. rewrite He in He'. injection He' as <-.
    by destruct e.
  - simpl. split; [reflexivity |]. split; [| split; [| split; [| split]]].
    + intros id Hne. by rewrite lookup_insert_ne.
    + intros id. rewrite lookup_insert. case_decide; [subst id |];
        [split; intros H; [discriminate | congruence] | reflexivity].
    + intros e e'. rewrite He, lookup_insert_eq.
      intros [= <-] [= <-]. reflexivity.
    + intros id k' Hk'. rewrite lookup_insert_ne; [assumption | congruence].
    + intros id Hne. by rewrite lookup_insert_ne.
Qed.

(** X6. A cancellation and a status update add no ticket, remove none and
    change, in the rows they leave, nothing but the status: user, event,
    quantity, total price and purchase date of every ticket are what they
    were (rows being stored under their identifiers). *)
Theorem X6_only_the_status_of_a_ticket_changes η ticketID userID req db :
  keyed db →
  let db1 := fst (CancelTicket η ticketID userID db) in
  let db2 := fst (UpdateTicketStatus η ticketID req db) in
  (∀ id, tickets db1 !! id = None ↔ tickets db !! id = None)
  ∧ (∀ id k k',
       tickets db !! id = Some k → tickets db1 !! id = Some k' →
       k' = Ticket.set_Status (Ticket.Status k') k)
  ∧ (∀ id, tickets db2 !! id = None ↔ tickets db !! id = None)
  ∧ (∀ id k k',
       tickets db !! id = Some k → tickets db2 !! id = Some k' →
       k' = Ticket.set_Status (Ticket.Status k') k).
Proof.
  intros Hkey. cbv zeta.
  assert (Hsame : ∀ k : Ticket.t, k = Ticket.set_Status (Ticket.Status k) k)
    by (by intros []).
  assert (Hstep : ∀ (s : TicketStatus) (k0 : Ticket.t),
            tickets db !! ticketID = Some k0 →
            (∀ id, <[Ticket.ID k0 := Ticket.set_Status s k0]> (tickets db)
                   !! id = None ↔ tickets db !! id = None)
            ∧ (∀ id k k',
                 tickets db !! id = Some k →
                 <[Ticket.ID k0 := Ticket.set_Status s k0]> (tickets db)
                 !! id = Some k' →
                 k' = Ticket.set_Status (Ticket.Status k') k)).
  { intros s k0 Hk0. rewrite (Hkey _ _ Hk0). split.
    - intros id. rewrite lookup_insert. case_decide; [subst id |];
        [split; intros H; [discriminate | congruence] | reflexivity].
    - intros id k k' Hk. rewrite lookup_insert. case_decide.
      + subst id. rewrite Hk0 in Hk. injection Hk as <-.
        intros [= <-]. reflexivity.
      + intros Hk'. rewrite Hk in Hk'. injection Hk' as <-. apply Hsame. }
  assert (Hid : (∀ id, tickets db !! id = None ↔ tickets db !! id = None)
                ∧ (∀ id k k',
                     tickets db !! id = Some k → tickets db !! id = Some k' →
                     k' = Ticket.set_Status (Ticket.Status k') k)).
  { split; [done |]. intros id k k' Hk Hk'. rewrite Hk in Hk'.
    injection Hk' as <-. apply Hsame. }
  destruct (CancelTicket η ticketID userID db) as [db1 r1] eqn:E1.
  destruct (UpdateTicketStatus η ticketID req db) as [db2 r2] eqn:E2.
  simpl.
  assert (H1 : (∀ id, tickets db1 !! id = None ↔ tickets db !! id = None)
               ∧ (∀ id k k',
                    tickets db !! id = Some k → tickets db1 !! id = Some k' →
                    k' = Ticket.set_Status (Ticket.Status k') k)).
  { destruct (CancelTicket_cases _ _ _ _ _ _ E1)
      as [[-> _] | (k0 & event & Hk0 & _ & _ & _ & _ & _ & ->)];
      [exact Hid | by apply Hstep]. }
  assert (H2 : (∀ id, tickets db2 !! id = None ↔ tickets db !! id = None)
               ∧ (∀ id k k',
                    tickets db !! id = Some k → tickets db2 !! id = Some k' →
                    k' = Ticket.set_Status (Ticket.Status k') k)).
  { destruct (UpdateTicketStatus_cases _ _ _ _ _ _ E2)
      as [[-> _] | (k0 & Hk0 & _ & _ & _ & ->)];
      [exact Hid | by apply Hstep]. }
  destruct H1 as [H1a H1b], H2 as [H2a H2b]. repeat split; try assumption.
  - by apply H1a.
  - by apply H1a.
  - by apply H2a.
  - by apply H2a.
Qed.

Lemma keyed_db_B available s : keyed (db_B available s).
Proof.
  intros id k Hk. simpl in Hk.
  by apply lookup_singleton_Some in Hk as [<- <-].
Qed.

Lemma X6_only_the_status_of_a_ticket_changes_witness :
  let db := db1 in
  let db1 := fst (CancelTicket env0 "t1" "u1" db) in
  let db2 :=
    fst (UpdateTicketStatus env0 "t1"
           (UpdateTicketStatusRequest.mk TicketStatusUsed) db) in
  (∀ id, tickets db1 !! id = None ↔ tickets db !! id = None)
  ∧ (∀ id k k',
       tickets db !! id = Some k → tickets db1 !! id = Some k' →
       k' = Ticket.set_Status (Ticket.Status k') k)
  ∧ (∀ id, tickets db2 !! id = None ↔ tickets db !! id = None)
  ∧ (∀ id k k',
       tickets db !! id = Some k → tickets db2 !! id = Some k' →
       k' = Ticket.set_Status (Ticket.Status k') k).
Proof.
  apply (X6_only_the_status_of_a_ticket_changes env0 "t1" "u1"
           (UpdateTicketStatusRequest.mk TicketStatusUsed) db1).
  apply keyed_db_B.
Defined.

(** ** Errors inside the transaction *)

(** X7. A cancellation that returns an error, whichever check or database
    call caused it (the commit included), returns the database as it was.
    So does a purchase, for every error but that of reading the ticket
    again after the commit. *)
Theorem X7_transaction_errors_undo_everything η db db' e :
  (∀ ticketID userID,
     CancelTicket η ticketID userID db = (db', Err e) → db' = db)
  ∧ (∀ userID req,
       BuyTicket η userID req db = (db', Err e) →
       e ≠ ErrStorage TicketGetByID → db' = db).
Proof.
  split.
  - intros ticketID userID H. by eapply CancelTicket_error_unchanged.
  - intros userID req H Hne. by eapply BuyTicket_error_unchanged.
Qed.

Lemma X7_transaction_errors_undo_everything_witness :
  CancelTicket (env_failing [TxCommit]) "t1" "u1" db1
  = (db1, Err (ErrStorage TxCommit))
  ∧ db1 = db1.
Proof.
  split; [vm_compute; reflexivity |].
  apply (proj1 (X7_transaction_errors_undo_everything
                  (env_failing [TxCommit]) db1 db1 (ErrStorage TxCommit))
           "t1"%string "u1"%string).
  vm_compute. reflexivity.
Defined.

(** ** One call after another *)

(** X8. A ticket is not cancelled twice: after a cancellation has returned
    the ticket, every further cancellation of it, by any user and in any
    environment, returns an error and the database as the first one left
    it, so the quantity is not added to the count again.  When the read of
    the ticket succeeds the error is "ticket cannot be cancelled" for the
    owner and "you can only cancel your own tickets" for anyone else. *)
Theorem X8_no_second_cancellation η1 η2 ticketID u1 u2 db db1 ticket :
  keyed db →
  CancelTicket η1 ticketID u1 db = (db1, Ok ticket) →
  ∃ e,
    CancelTicket η2 ticketID u2 db1 = (db1, Err e)
    ∧ (fails η2 TicketFirst = false →
       e = if bool_decide (u2 = u1) then ErrNotCancellable
           else ErrNotOwner).
Proof.
  intros Hkey H.
  destruct (CancelTicket_cases _ _ _ _ _ _ H)
    as [[_ [e He]] | (k & event & Hk & Hu & _ & _ & _ & _ & ->)];
    [discriminate |].
  rewrite (Hkey _ _ Hk).
  unfold CancelTicket. unfold_calls. simpl.
  destruct (fails η2 TicketFirst).
  - eexists. split; [reflexivity | discriminate].
  - cbn [tickets]. rewrite lookup_insert_eq. simpl. rewrite Hu.
    destruct (decide (u2 = u1)) as [-> | Hne].
    + rewrite (bool_decide_eq_false_2 _) by (intros Hne; by apply Hne).
      simpl. eexists. split; [reflexivity |].
      intros _. by rewrite (bool_decide_eq_true_2 _ eq_refl).
    + rewrite (bool_decide_eq_true_2 (u1 ≠ u2)) by congruence.
      eexists. split; [reflexivity |].
      intros _. by rewrite (bool_decide_eq_false_2 _ Hne).
Qed.

Lemma X8_no_second_cancellation_witness :
  ∃ e,
    CancelTicket env0 "t1" "u1" (db_B 10 TicketStatusCancelled)
    = (db_B 10 TicketStatusCancelled, Err e)
    ∧ (fails env0 TicketFirst = false →
       e = if bool_decide ("u1"%string = "u1"%string) then ErrNotCancellable
           else ErrNotOwner).
Proof.
  apply (X8_no_second_cancellation env0 env0 "t1" "u1" "u1" db1
           (db_B 10 TicketStatusCancelled) (ticket_B TicketStatusCancelled));
    [apply keyed_db_B | vm_compute; reflexivity].
Defined.

(** X9. A ticket bought less than two hours before the event cannot be
    cancelled: when the purchase returned the ticket at an instant at which
    the event was less than two hours away, every cancellation of that
    ticket at that instant or later, by any user, returns an error and
    leaves the database as it was; for the buyer, the reads of the database
    succeeding, the error is "cannot cancel tickets within 2 hours of event
    start". *)
Theorem X9_late_purchase_is_final η1 η2 userID req db db1 ticket event :
  BuyTicket η1 userID req db = (db1, Ok ticket) →
  events db !! BuyTicketRequest.EventID req = Some event →
  Event.EventDate event < Time_Add (now η1) (2 * Hour) →
  now η1 ≤ now η2 →
  (∀ u2, ∃ e, CancelTicket η2 (Ticket.ID ticket) u2 db1 = (db1, Err e))
  ∧ (fails η2 TicketFirst = false → fails η2 EventFirst = false →
     CancelTicket η2 (Ticket.ID ticket) userID db1
     = (db1, Err ErrCancelTooLate)).
Proof.
  intros H He Hlate Hnow.
  pose proof (BuyTicket_Ok _ _ _ _ _ _ H) as Hok. cbv zeta in Hok.
  destruct Hok
    as (user & event' & _ & _ & He' & _ & _ & _ & Hfresh & Hk & Hdb).
  rewrite He in He'. injection He' as <-.
  assert (Hev1 : events db1 !! BuyTicketRequest.EventID req
                 = Some (Event.set_Available
                           (λ a, a - BuyTicketRequest.Quantity req) event))
    by (subst db1; simpl; apply lookup_insert_eq).
  assert (Htk1 : tickets db1 !! Ticket.ID ticket = Some ticket)
    by (subst db1 ticket; simpl; apply lookup_insert_eq).
  assert (Hid : Ticket.EventID ticket = BuyTicketRequest.EventID req)
    by (by subst ticket).
  assert (Hown : Ticket.UserID ticket = userID) by (by subst ticket).
  assert (Hst : Ticket.Status ticket = TicketStatusActive)
    by (by subst ticket).
  clear Hk Hdb H. unfold Time_Add in *. split.
  - intros u2.
    destruct (CancelTicket η2 (Ticket.ID ticket) u2 db1) as [db2 r2] eqn:E2.
    destruct (CancelTicket_cases _ _ _ _ _ _ E2)
      as [[-> [e ->]] | (k & ev & Hk & _ & _ & Hev & Ht & _ & _)];
      [by eexists |].
    rewrite Htk1 in Hk. injection Hk as <-.
    rewrite Hid, Hev1 in Hev. injection Hev as <-.
    unfold Time_Add in Ht. simpl in Ht. lia.
  - intros Hf1 Hf2. unfold CancelTicket. unfold_calls.
    rewrite Hf1, Htk1, Hown. simpl.
    rewrite (bool_decide_eq_false_2 _) by (intros Hne; by apply Hne).
    unfold Ticket.CanBeCancelled. rewrite (bool_decide_eq_true_2 _ Hst).
    cbn [negb]. rewrite Hf2, Hid, Hev1.
    cbn [Event.EventDate Event.set_Available].
    unfold Time_Before, Time_Add.
    assert (Hlt : (Event.EventDate event <? now η2 + 2 * Hour) = true)
      by (apply Z.ltb_lt; lia).
    by rewrite Hlt.
Qed.

Lemma X9_late_purchase_is_final_witness :
  let η := mkEnv no_fault (98 * Hour + 1) "t1" in
  let ticket :=
    Ticket.mk "t1" "u1" "e1" 3 150 TicketStatusActive (98 * Hour + 1) in
  let db1 :=
    mkDB {[ "u1"%string := alice ]} {[ "e1"%string := concert 7 ]}
         {[ "t1"%string := ticket ]} in
  (∀ u2, ∃ e, CancelTicket η (Ticket.ID ticket) u2 db1 = (db1, Err e))
  ∧ (fails η TicketFirst = false → fails η EventFirst = false →
     CancelTicket η (Ticket.ID ticket) "u1" db1 = (db1, Err ErrCancelTooLate)).
Proof.
  cbv zeta.
  apply (X9_late_purchase_is_final
           (mkEnv no_fault (98 * Hour + 1) "t1")
           (mkEnv no_fault (98 * Hour + 1) "t1")
           "u1" (BuyTicketRequest.mk "e1" 3) db0 _ _ (concert 10));
    first [reflexivity | vm_compute; first [reflexivity | congruence]].
Defined.

Lemma buy_in_turn_no_oversell_witness :
  ∃ event',
    events (mkDB {[ "u1"%string := alice ]} {[ "e1"%string := concert 4 ]}
              {[ "t1"%string :=
                   Ticket.mk "t1" "u1" "e1" 6 300 TicketStatusActive
                     (10 * Hour) ]}) !! "e1"%string = Some event'
    ∧ Event.Available event' = Event.Available (concert 10) - sum_Z [6]
    ∧ 0 ≤ Event.Available event'
    ∧ sum_Z [6] ≤ Event.Available (concert 10).
Proof.
  apply (buy_in_turn_no_oversell "e1"
           [ (env0, "u1"%string, BuyTicketRequest.mk "e1" 6);
             (mkEnv no_fault (10 * Hour) "t2", "u1"%string,
              BuyTicketRequest.mk "e1" 6) ] db0 (concert 10));
    [ repeat constructor | reflexivity | vm_compute; congruence
    | vm_compute; reflexivity ].
Defined.

(** ** The two versions of the service *)

(** X11. When no database call fails, the purchase without transaction
    returns what the purchase with transaction returns and leaves the same
    database, for every request and every database; so does the
    cancellation, for a ticket whose quantity is not the least [int]. *)
Theorem X11_versions_agree_without_faults η db :
  (∀ c, fails η c = false) →
  (∀ userID req,
     Unlocked.BuyTicket η userID req db = BuyTicket η userID req db)
  ∧ (∀ ticketID userID,
       (∀ k, tickets db !! ticketID = Some k →
             int_min < Ticket.Quantity k ≤ int_max) →
       Unlocked.CancelTicket η ticketID userID db
       = CancelTicket η ticketID userID db).
Proof.
  intros Hnf. split.
  - intros userID req.
    unfold Unlocked.BuyTicket, BuyTicket, Unlocked.undo_on_error.
    unfold_calls. rewrite !Hnf.
    repeat first
      [ rewrite Ticket_BeforeCreate_new; cbn [Ticket.ID]
      | match goal with
        | |- context [match ?m !! ?i with _ => _ end] =>
            destruct (m !! i) eqn:?
        | |- context [if ?b then _ else _] => destruct b eqn:?
        end
      | progress simpl ];
      try reflexivity.
  - intros ticketID userID Hq.
    unfold Unlocked.CancelTicket, CancelTicket, Unlocked.undo_on_error.
    unfold_calls. rewrite !Hnf.
    destruct (tickets db !! ticketID) as [k |] eqn:Hk; [| reflexivity].
    destruct (bool_decide (Ticket.UserID k ≠ userID)); [reflexivity |].
    destruct (negb (Ticket.CanBeCancelled k)); [reflexivity |].
    destruct (events db !! Ticket.EventID k) as [event |] eqn:He;
      [| reflexivity].
    destruct (Time_Before _ _); [reflexivity |].
    cbn [Ticket.EventID Ticket.Quantity Ticket.set_Status].
    rewrite (int_neg_opp _ (Hq _ eq_refl)).
    unfold set_events, set_tickets. cbn [users events tickets].
    rewrite !(alter_Some _ _ _ _ He).
    do 3 f_equal. destruct event. unfold Event.set_Available. simpl.
    f_equal. lia.
Qed.

Lemma X11_versions_agree_without_faults_witness :
  (∀ userID req,
     Unlocked.BuyTicket env0 userID req db1 = BuyTicket env0 userID req db1)
  ∧ (∀ ticketID userID,
       (∀ k, tickets db1 !! ticketID = Some k →
             int_min < Ticket.Quantity k ≤ int_max) →
       Unlocked.CancelTicket env0 ticketID userID db1
       = CancelTicket env0 ticketID userID db1).
Proof.
  apply (X11_versions_agree_without_faults env0 db1). reflexivity.
Defined.

Lemma Unlocked_BuyTicket_checks_run η userID req db user event :
  (∀ c, fails η c = false) →
  users db !! userID = Some user → User.IsActive user = true →
  events db !! BuyTicketRequest.EventID req = Some event →
  Event.IsAvailable event = true →
  BuyTicketRequest.Quantity req ≤ Event.Available event →
  Time_Add (now η) Hour ≤ Event.EventDate event →
  Unlocked.BuyTicket_checks η userID req db = (db, Ok event).
Proof.
  intros Hnf Hu Hact He Hav Hq Ht.
  unfold Unlocked.BuyTicket_checks. unfold_calls.
  rewrite !Hnf, Hu, Hact. cbn [negb]. rewrite He, Hav. cbn [negb].
  apply Z.ltb_ge in Hq. rewrite Hq.
  unfold Time_Before. apply Z.ltb_ge in Ht. by rewrite Ht.
Qed.

Lemma Unlocked_BuyTicket_writes_run η userID req event db :
  (∀ c, fails η c = false) →
  tickets db !! uuid η = None →
  let eventID := BuyTicketRequest.EventID req in
  let quantity := BuyTicketRequest.Quantity req in
  let ticket :=
    Ticket.mk (uuid η) userID eventID quantity
      (Event.Price event * float64_of_int quantity)%float
      TicketStatusActive (now η) in
  Unlocked.BuyTicket_writes η userID req event db
  = (mkDB (users db)
       (alter (Event.set_Available (λ a, a - quantity)) eventID (events db))
       (<[uuid η := ticket]> (tickets db)),
     Ok ticket).
Proof.
  intros Hnf Hfresh. cbv zeta.
  unfold Unlocked.BuyTicket_writes, Unlocked.undo_on_error. unfold_calls.
  rewrite !Hnf, Ticket_BeforeCreate_new. cbn [Ticket.ID]. rewrite Hfresh.
  unfold set_events, set_tickets. cbn [users events tickets].
  by rewrite lookup_insert_eq.
Qed.

(** X12. Without transaction the checks of a purchase can be out of date
    when its writes run.  Two purchases on one event, each of a quantity
    the count allows alone but not together: when both have passed their
    checks before either writes, both return a ticket, and the count of the
    event ends at [available - qA - qB], below zero. *)
Theorem X12_unlocked_purchases_can_oversell
    ηA ηB userA userB eventID qA qB db uA uB event :
  (∀ c, fails ηA c = false) → (∀ c, fails ηB c = false) →
  users db !! userA = Some uA → User.IsActive uA = true →
  users db !! userB = Some uB → User.IsActive uB = true →
  events db !! eventID = Some event → Event.IsAvailable event = true →
  Time_Add (now ηA) Hour ≤ Event.EventDate event →
  Time_Add (now ηB) Hour ≤ Event.EventDate event →
  tickets db !! uuid ηA = None → tickets db !! uuid ηB = None →
  uuid ηA ≠ uuid ηB →
  qA ≤ Event.Available event → qB ≤ Event.Available event →
  Event.Available event < qA + qB →
  let reqA := BuyTicketRequest.mk eventID qA in
  let reqB := BuyTicketRequest.mk eventID qB in
  ∃ db2 db3 ticketA ticketB event',
    Unlocked.BuyTicket_checks ηA userA reqA db = (db, Ok event)
    ∧ Unlocked.BuyTicket_checks ηB userB reqB db = (db, Ok event)
    ∧ Unlocked.BuyTicket_writes ηA userA reqA event db = (db2, Ok ticketA)
    ∧ Unlocked.BuyTicket_writes ηB userB reqB event db2 = (db3, Ok ticketB)
    ∧ events db3 !! eventID = Some event'
    ∧ Event.Available event' = Event.Available event - qA - qB
    ∧ Event.Available event' < 0.
Proof.
  intros HnfA HnfB HuA HactA HuB HactB He Hav HtA HtB HfA HfB Hne HqA HqB
    Hsum. cbv zeta. do 5 eexists.
  split; [by eapply Unlocked_BuyTicket_checks_run |].
  split; [by eapply Unlocked_BuyTicket_checks_run |].
  split; [by apply Unlocked_BuyTicket_writes_run |].
  split.
  { apply Unlocked_BuyTicket_writes_run; [assumption |].
    cbn [tickets]. by rewrite lookup_insert_ne. }
  cbn [events BuyTicketRequest.EventID BuyTicketRequest.Quantity].
  rewrite !lookup_alter_eq, He. cbn [fmap option_fmap option_map].
  split; [reflexivity |]. simpl. lia.
Qed.

Lemma X12_unlocked_purchases_can_oversell_witness :
  ∃ db2 db3 ticketA ticketB event',
    Unlocked.BuyTicket_checks env0 "u1" (BuyTicketRequest.mk "e1" 6) db0
    = (db0, Ok (concert 10))
    ∧ Unlocked.BuyTicket_checks (mkEnv no_fault (10 * Hour) "t2") "u1"
        (BuyTicketRequest.mk "e1" 6) db0
      = (db0, Ok (concert 10))
    ∧ Unlocked.BuyTicket_writes env0 "u1" (BuyTicketRequest.mk "e1" 6)
        (concert 10) db0
      = (db2, Ok ticketA)
    ∧ Unlocked.BuyTicket_writes (mkEnv no_fault (10 * Hour) "t2") "u1"
        (BuyTicketRequest.mk "e1" 6) (concert 10) db2
      = (db3, Ok ticketB)
    ∧ events db3 !! "e1"%string = Some event'
    ∧ Event.Available event' = Event.Available (concert 10) - 6 - 6
    ∧ Event.Available event' < 0.
Proof.
  apply (X12_unlocked_purchases_can_oversell env0
           (mkEnv no_fault (10 * Hour) "t2") "u1" "u1" "e1" 6 6 db0
           alice alice (concert 10));
    first [reflexivity | vm_compute; congruence].
Defined.

(** ** Pagination *)

Lemma GetLimit_range p :
  1 ≤ (Pagination.GetLimit p).1 ≤ 100
  ∧ Pagination.Limit (Pagination.GetLimit p).2 = (Pagination.GetLimit p).1
  ∧ Pagination.Page (Pagination.GetLimit p).2 = Pagination.Page p.
Proof.
  unfold Pagination.GetLimit. destruct p as [page limit]. simpl.
  destruct (limit <=? 0) eqn:H0; simpl.
  - repeat split; lia.
  - apply Z.leb_gt in H0.
    destruct (100 <? limit) eqn:H1; simpl; [repeat split; lia |].
    apply Z.ltb_ge in H1. repeat split; lia.
Qed.

Lemma GetLimit_fst p :
  (Pagination.GetLimit p).1
  = if Pagination.Limit p <=? 0 then 10
    else if 100 <? Pagination.Limit p then 100 else Pagination.Limit p.
Proof.
  unfold Pagination.GetLimit. destruct p as [page limit]. simpl.
  destruct (limit <=? 0); simpl; [reflexivity |].
  destruct (100 <? limit); reflexivity.
Qed.

Lemma GetLimit_in_range p :
  1 ≤ Pagination.Limit p ≤ 100 →
  Pagination.GetLimit p = (Pagination.Limit p, p).
Proof.
  intros [H1 H2]. unfold Pagination.GetLimit.
  destruct p as [page limit]. simpl in *.
  assert (Ha : (limit <=? 0) = false) by (apply Z.leb_gt; lia).
  assert (Hb : (100 <? limit) = false) by (apply Z.ltb_ge; lia).
  rewrite Ha. simpl. by rewrite Hb.
Qed.

(** X13. The limit of a page is always between 1 and 100: a limit of zero
    or less becomes 10, a limit above 100 becomes 100, any other is kept.
    The method leaves that limit in the pagination and does not touch the
    page, so calling it again returns the same limit and changes
    nothing. *)
Theorem X13_GetLimit_clamps p :
  let '(limit, p') := Pagination.GetLimit p in
  1 ≤ limit ≤ 100
  ∧ limit = (if Pagination.Limit p <=? 0 then 10
             else if 100 <? Pagination.Limit p then 100
             else Pagination.Limit p)
  ∧ p' = Pagination.mk (Pagination.Page p) limit
  ∧ Pagination.GetLimit p' = (limit, p').
Proof.
  destruct (Pagination.GetLimit p) as [limit p'] eqn:E.
  pose proof (GetLimit_range p) as (Hr & Hl & Hp). rewrite E in Hr, Hl, Hp.
  simpl in Hr, Hl, Hp.
  split; [exact Hr |]. split; [| split].
  - unfold Pagination.GetLimit in E. destruct p as [page lim]. simpl in *.
    destruct (lim <=? 0) eqn:H0; simpl in E.
    + by injection E as <- <-.
    + destruct (100 <? lim); simpl in E; by injection E as <- <-.
  - destruct p'. simpl in *. by subst.
  - rewrite GetLimit_in_range by (rewrite Hl; exact Hr). by rewrite Hl.
Qed.

(** X14. The offset of a page: a page of zero or less counts as page 1 and
    is written back as 1; for a page number up to [int_max / 100] the
    offset is [(page - 1) * limit] with the clamped limit, so it is never
    negative and page 1 starts at offset 0. *)
Theorem X14_GetOffset_of_page p :
  Pagination.Page p ≤ int_max `div` 100 →
  let '(offset, p') := Pagination.GetOffset p in
  let limit := (Pagination.GetLimit p).1 in
  Pagination.Page p' = Z.max 1 (Pagination.Page p)
  ∧ Pagination.Limit p' = limit
  ∧ offset = (Pagination.Page p' - 1) * limit
  ∧ 0 ≤ offset
  ∧ (Pagination.Page p ≤ 1 → offset = 0).
Proof.
  intros Hpage. unfold Pagination.GetOffset.
  set (q := if Pagination.Page p <=? 0
            then Pagination.mk 1 (Pagination.Limit p) else p).
  assert (Hq : Pagination.Page q = Z.max 1 (Pagination.Page p)
               ∧ Pagination.Limit q = Pagination.Limit p).
  { subst q. destruct (Pagination.Page p <=? 0) eqn:H0; simpl.
    - apply Z.leb_le in H0. split; [lia | reflexivity].
    - apply Z.leb_gt in H0. split; [lia | reflexivity]. }
  destruct Hq as [Hq1 Hq2].
  assert (Hsame : (Pagination.GetLimit q).1 = (Pagination.GetLimit p).1)
    by (by rewrite !GetLimit_fst, Hq2).
  pose proof (GetLimit_range q) as (Hr & Hl & Hp).
  destruct (Pagination.GetLimit q) as [limit q'] eqn:E. simpl in *.
  rewrite <- Hsame.
  assert (Hmax : int_max `div` 100 = 92233720368547758) by reflexivity.
  rewrite Hmax in Hpage.
  assert (Hw1 : int_wrap (Pagination.Page q - 1) = Pagination.Page q - 1).
  { unfold int_wrap. rewrite Z.mod_small; lia. }
  rewrite Hw1.
  assert (Hw2 : int_wrap ((Pagination.Page q - 1) * limit)
                = (Pagination.Page q - 1) * limit).
  { unfold int_wrap. rewrite Z.mod_small; [lia |]. nia. }
  rewrite Hw2, Hp. repeat split; try assumption; try reflexivity.
  - nia.
  - intros H1. rewrite Hq1. replace (Z.max 1 (Pagination.Page p)) with 1 by lia.
    lia.
Qed.

Lemma X14_GetOffset_of_page_witness :
  let '(offset, p') := Pagination.GetOffset (Pagination.mk 3 250) in
  let limit := (Pagination.GetLimit (Pagination.mk 3 250)).1 in
  Pagination.Page p' = Z.max 1 (Pagination.Page (Pagination.mk 3 250))
  ∧ Pagination.Limit p' = limit
  ∧ offset = (Pagination.Page p' - 1) * limit
  ∧ 0 ≤ offset
  ∧ (Pagination.Page (Pagination.mk 3 250) ≤ 1 → offset = 0).
Proof.
  apply (X14_GetOffset_of_page (Pagination.mk 3 250)).
  vm_compute. congruence.
Defined.

Lemma GetOffset_snd p :
  (Pagination.GetOffset p).2
  = Pagination.mk (Z.max 1 (Pagination.Page p)) (Pagination.GetLimit p).1.
Proof.
  unfold Pagination.GetOffset.
  set (q := if Pagination.Page p <=? 0
            then Pagination.mk 1 (Pagination.Limit p) else p).
  assert (Hq : Pagination.Page q = Z.max 1 (Pagination.Page p)
               ∧ Pagination.Limit q = Pagination.Limit p).
  { subst q. destruct (Pagination.Page p <=? 0) eqn:H0; simpl.
    - apply Z.leb_le in H0. split; [lia | reflexivity].
    - apply Z.leb_gt in H0. split; [lia | reflexivity]. }
  destruct Hq as [Hq1 Hq2].
  assert (Hsame : (Pagination.GetLimit q).1 = (Pagination.GetLimit p).1)
    by (by rewrite !GetLimit_fst, Hq2).
  pose proof (GetLimit_range q) as (_ & Hl & Hp).
  destruct (Pagination.GetLimit q) as [limit q'] eqn:E. simpl in *.
  destruct q' as [page' limit']. simpl in *. congruence.
Qed.

(** X15. The [meta] of a list of [total] rows, for any page and limit asked
    for: the current page is the page asked for, or 1 when that is zero or
    less, and is not cut down to the number of pages; the limit is the
    clamped one; and the number of pages is the least that holds all rows:
    [total ≤ pages * limit < total + limit], so 0 pages for no row. *)
Theorem X15_list_meta_counts_pages p total :
  0 ≤ total ≤ int_max - 100 →
  let m := list_meta p total in
  PaginationMeta.CurrentPage m = Z.max 1 (Pagination.Page p)
  ∧ PaginationMeta.Limit m = (Pagination.GetLimit p).1
  ∧ 1 ≤ PaginationMeta.Limit m ≤ 100
  ∧ PaginationMeta.TotalItems m = total
  ∧ total ≤ PaginationMeta.TotalPages m * PaginationMeta.Limit m
    < total + PaginationMeta.Limit m.
Proof.
  intros Htotal. cbv zeta. unfold list_meta, repo_paginate.
  pose proof (GetOffset_snd p) as Hoff.
  destruct (Pagination.GetOffset p) as [offset p1]. simpl in Hoff.
  pose proof (GetLimit_range p) as (Hr & _ & _).
  set (limit := (Pagination.GetLimit p).1) in *.
  assert (Hin : Pagination.GetLimit p1 = (limit, p1))
    by (subst p1; by apply GetLimit_in_range).
  rewrite !Hin. subst p1. simpl.
  unfold int_max in Htotal.
  assert (Hw1 : int_wrap (total + limit) = total + limit)
    by (unfold int_wrap; rewrite Z.mod_small; lia).
  rewrite Hw1.
  assert (Hw2 : int_wrap (total + limit - 1) = total + limit - 1)
    by (unfold int_wrap; rewrite Z.mod_small; lia).
  rewrite Hw2.
  rewrite Z.quot_div_nonneg by lia.
  pose proof (Z.div_mod (total + limit - 1) limit ltac:(lia)) as Hdm.
  pose proof (Z.mod_pos_bound (total + limit - 1) limit ltac:(lia)) as Hb.
  repeat split; try lia; nia.
Qed.

Lemma X15_list_meta_counts_pages_witness :
  let m := list_meta (Pagination.mk 0 0) 25 in
  PaginationMeta.CurrentPage m = Z.max 1 (Pagination.Page (Pagination.mk 0 0))
  ∧ PaginationMeta.Limit m = (Pagination.GetLimit (Pagination.mk 0 0)).1
  ∧ 1 ≤ PaginationMeta.Limit m ≤ 100
  ∧ PaginationMeta.TotalItems m = 25
  ∧ 25 ≤ PaginationMeta.TotalPages m * PaginationMeta.Limit m
    < 25 + PaginationMeta.Limit m.
Proof.
  apply (X15_list_meta_counts_pages (Pagination.mk 0 0) 25).
  vm_compute. split; congruence.
Defined.

(** ** The status codes of the ticket handlers *)

Lemma BuyTicket_status_of_error e :
  (if error_is e "user account is not active"
      || error_is e "event is not available for booking"
      || error_is e "insufficient tickets available"
      || error_is e
           "cannot purchase tickets for events starting within an hour"
   then StatusBadRequest else StatusInternalServerError)
  = match e with
    | ErrUserNotActive | ErrEventNotAvailable | ErrInsufficientTickets
    | ErrPurchaseTooLate => StatusBadRequest
    | _ => StatusInternalServerError
    end.
Proof. destruct e; reflexivity. Qed.

Lemma CancelTicket_status_of_error e :
  (if error_is e "you can only cancel your own tickets"
   then StatusForbidden
   else if error_is e "ticket cannot be cancelled"
           || error_is e
                "cannot cancel tickets within 2 hours of event start"
   then StatusBadRequest
   else StatusInternalServerError)
  = match e with
    | ErrNotOwner => StatusForbidden
    | ErrNotCancellable | ErrCancelTooLate => StatusBadRequest
    | _ => StatusInternalServerError
    end.
Proof. destruct e; reflexivity. Qed.

(** X16. The answer of the purchase handler.  Without a user id in the
    context it is 401, with a body that does not bind it is 400, and the
    service is not called.  Otherwise the database is the one the service
    leaves, and the code is 201 exactly when the service returned a ticket,
    400 or 500 when it returned an error; a 400 always comes with the
    database unchanged; and "record not found", the error of a purchase
    for an unknown user or an unknown event, is answered 500. *)
Theorem X16_buy_handler_status η userID req db :
  let out := TicketController.BuyTicket η (Some userID) (Some req) db in
  let res := BuyTicket η userID req db in
  (∀ body, TicketController.BuyTicket η None body db
           = (db, StatusUnauthorized))
  ∧ TicketController.BuyTicket η (Some userID) None db
    = (db, StatusBadRequest)
  ∧ out.1 = res.1
  ∧ (out.2 = StatusCreated ↔ ∃ ticket, res.2 = Ok ticket)
  ∧ (out.2 = StatusCreated ∨ out.2 = StatusBadRequest
     ∨ out.2 = StatusInternalServerError)
  ∧ (out.2 = StatusBadRequest → out.1 = db)
  ∧ (res.2 = Err ErrRecordNotFound → out.2 = StatusInternalServerError)
  ∧ (fails η UserGetByID = false → users db !! userID = None →
     out = (db, StatusInternalServerError)).
Proof.
  cbv zeta. split; [reflexivity |]. split; [reflexivity |].
  assert (Hmiss : fails η UserGetByID = false → users db !! userID = None →
                  BuyTicket η userID req db = (db, Err ErrRecordNotFound)).
  { intros Hf Hu. unfold BuyTicket. unfold_calls. by rewrite Hf, Hu. }
  unfold TicketController.BuyTicket.
  destruct (BuyTicket η userID req db) as [db' [ticket | e]] eqn:E;
    cbn [fst snd].
  - split; [reflexivity |]. split; [split; [by eexists | reflexivity] |].
    split; [by left |]. split; [discriminate |]. split; [discriminate |].
    intros Hf Hu. specialize (Hmiss Hf Hu). discriminate.
  - rewrite BuyTicket_status_of_error.
    split; [reflexivity |].
    split; [split; [by destruct e | by intros [t Ht]] |].
    split; [destruct e; auto |].
    split.
    { intros Hcode. eapply BuyTicket_error_unchanged; [exact E |].
      intros ->. discriminate. }
    split; [by intros [= ->] |].
    intros Hf Hu. specialize (Hmiss Hf Hu). by injection Hmiss as -> ->.
Qed.

(** X17. The answer of the cancellation handler, for a ticket id that is
    not empty and a user id in the context: the code is 200 exactly when the
    service returned the ticket; any other code comes with the database
    unchanged; "you can only cancel your own tickets" is answered 403,
    "ticket cannot be cancelled" and the two-hour refusal 400, and every
    other error 500, among them "record not found": a cancellation of a
    ticket that does not exist is answered 500. *)
Theorem X17_cancel_handler_status η ticketID userID db :
  ticketID ≠ EmptyString →
  let out := TicketController.CancelTicket η ticketID (Some userID) db in
  let res := CancelTicket η ticketID userID db in
  out.1 = res.1
  ∧ (out.2 = StatusOK ↔ ∃ ticket, res.2 = Ok ticket)
  ∧ (out.2 ≠ StatusOK → out.1 = db)
  ∧ (∀ e, res.2 = Err e →
       out.2 = match e with
               | ErrNotOwner => StatusForbidden
               | ErrNotCancellable | ErrCancelTooLate => StatusBadRequest
               | _ => StatusInternalServerError
               end)
  ∧ (fails η TicketFirst = false → tickets db !! ticketID = None →
     out = (db, StatusInternalServerError)).
Proof.
  intros Hid. cbv zeta.
  assert (Hmiss : fails η TicketFirst = false →
                  tickets db !! ticketID = None →
                  CancelTicket η ticketID userID db
                  = (db, Err ErrRecordNotFound)).
  { intros Hf Hk. unfold CancelTicket. unfold_calls. by rewrite Hf, Hk. }
  unfold TicketController.CancelTicket.
  rewrite (bool_decide_eq_false_2 _ Hid).
  destruct (CancelTicket η ticketID userID db) as [db' [ticket | e]] eqn:E;
    cbn [fst snd].
  - split; [reflexivity |]. split; [split; [by eexists | reflexivity] |].
    split; [done |]. split; [discriminate |].
    intros Hf Hk. specialize (Hmiss Hf Hk). discriminate.
  - rewrite CancelTicket_status_of_error.
    split; [reflexivity |].
    split; [split; [by destruct e | by intros [t Ht]] |].
    split; [intros _; by eapply CancelTicket_error_unchanged |].
    split; [by intros e' [= <-] |].
    intros Hf Hk. specialize (Hmiss Hf Hk). by injection Hmiss as -> ->.
Qed.

Lemma X17_cancel_handler_status_witness :
  let out := TicketController.CancelTicket env0 "t9" (Some "u1"%string) db1 in
  let res := CancelTicket env0 "t9" "u1" db1 in
  out.1 = res.1
  ∧ (out.2 = StatusOK ↔ ∃ ticket, res.2 = Ok ticket)
  ∧ (out.2 ≠ StatusOK → out.1 = db1)
  ∧ (∀ e, res.2 = Err e →
       out.2 = match e with
               | ErrNotOwner => StatusForbidden
               | ErrNotCancellable | ErrCancelTooLate => StatusBadRequest
               | _ => StatusInternalServerError
               end)
  ∧ (fails env0 TicketFirst = false → tickets db1 !! "t9"%string = None →
     out = (db1, StatusInternalServerError)).
Proof.
  apply (X17_cancel_handler_status env0 "t9" "u1" db1). discriminate.
Defined.

(** X18. The answer of the handler that shows one ticket, for a ticket id
    that is not empty.  The ticket is looked up before the caller is: when
    the service returns an error, a missing ticket or a failed read alike,
    the code is 404 whoever asks.  For a ticket that exists, the code is
    401 without a user in the context, 200 for an admin and for the user
    the ticket belongs to, and 403 for anyone else. *)
Theorem X18_show_handler_status IsAdmin η ticketID currentUser db :
  ticketID ≠ EmptyString →
  let code :=
    TicketController.GetTicketByID IsAdmin η ticketID currentUser db in
  (fails η TicketGetByID = true ∨ tickets db !! ticketID = None →
   code = StatusNotFound)
  ∧ (∀ ticket,
       fails η TicketGetByID = false →
       tickets db !! ticketID = Some ticket →
       code = match currentUser with
              | None => StatusUnauthorized
              | Some user =>
                  if IsAdmin user
                     || bool_decide (Ticket.UserID ticket = User.ID user)
                  then StatusOK else StatusForbidden
              end).
Proof.
  intros Hid. cbv zeta. unfold TicketController.GetTicketByID.
  rewrite (bool_decide_eq_false_2 _ Hid).
  unfold GetTicketByID. unfold_calls. split.
  - intros [Hf | Hk]; [by rewrite Hf |].
    destruct (fails η TicketGetByID); [reflexivity | by rewrite Hk].
  - intros ticket Hf Hk. rewrite Hf, Hk.
    destruct currentUser as [user |]; [| reflexivity].
    destruct (IsAdmin user); [reflexivity |]. simpl.
    destruct (decide (Ticket.UserID ticket = User.ID user)) as [Heq | Hne].
    + rewrite (bool_decide_eq_true_2 _ Heq).
      by rewrite (bool_decide_eq_false_2 _) by (intros Hne; by apply Hne).
    + by rewrite (bool_decide_eq_false_2 _ Hne), (bool_decide_eq_true_2 _ Hne).
Qed.

Lemma X18_show_handler_status_witness :
  let code :=
    TicketController.GetTicketByID (λ _, false) env0 "t1"
      (Some (User.mk "u2" true)) db1 in
  (fails env0 TicketGetByID = true ∨ tickets db1 !! "t1"%string = None →
   code = StatusNotFound)
  ∧ (∀ ticket,
       fails env0 TicketGetByID = false →
       tickets db1 !! "t1"%string = Some ticket →
       code = if false || bool_decide (Ticket.UserID ticket = "u2"%string)
              then StatusOK else StatusForbidden).
Proof.
  apply (X18_show_handler_status (λ _, false) env0 "t1"
           (Some (User.mk "u2" true)) db1).
  discriminate.
Defined.

(** ** The event service: proof steps *)

Lemma GetByName_cases η name cat cat' r :
  EventRepository.GetByName η name cat = (cat', r) →
  cat' = cat
  ∧ match r with
    | EOk row => ∃ i, cat !! i = Some row ∧ EventRow.Name row = name
    | EErr EErrRecordNotFound =>
        ∀ i row, cat !! i = Some row → EventRow.Name row ≠ name
    | EErr e => e = EErrStorage CatalogGetByName
    end.
Proof.
  unfold EventRepository.GetByName, ecall, efail.
  destruct (ev_fails η CatalogGetByName).
  { intros [= <- <-]. split; reflexivity. }
  destruct (head _) as [[i row] |] eqn:Hh.
  - intros [= <- <-]. split; [reflexivity |].
    apply head_Some_elem_of in Hh.
    apply elem_of_map_to_list, map_lookup_filter_Some in Hh as [Hi Hn].
    by exists i.
  - intros [= <- <-]. split; [reflexivity |].
    apply head_None, map_to_list_empty_iff in Hh.
    intros i row Hi Hn.
    assert (Hin : filter (λ ir : string * EventRow.t,
                            EventRow.Name ir.2 = name) cat !! i = Some row)
      by (by apply map_lookup_filter_Some).
    rewrite Hh in Hin. by rewrite lookup_empty in Hin.
Qed.

Lemma name_must_be_free_cases {A} η name (k : EM A) cat cat' r :
  EventService.name_must_be_free η name k cat = (cat', r) →
  (cat' = cat
   ∧ (r = EErr EErrNameExists
        ∧ (∃ i row, cat !! i = Some row ∧ EventRow.Name row = name)
      ∨ r = EErr (EErrStorage CatalogGetByName)))
  ∨ ((∀ i row, cat !! i = Some row → EventRow.Name row ≠ name)
     ∧ k cat = (cat', r)).
Proof.
  unfold EventService.name_must_be_free.
  destruct (EventRepository.GetByName η name cat) as [cat1 r1] eqn:E.
  apply GetByName_cases in E as [-> Hr].
  destruct r1 as [row | e].
  - intros [= <- <-]. left. split; [reflexivity |]. left.
    split; [reflexivity |]. destruct Hr as [i Hi]. by exists i, row.
  - destruct e; try (intros [= <- <-]; left; split; [reflexivity |];
                     right; by rewrite Hr).
    intros Hk. right. by split.
Qed.

Lemma name_used_by_other_false id name (cat : gmap string EventRow.t) :
  (∀ i row, cat !! i = Some row → i ≠ id → EventRow.Name row ≠ name) →
  EventRepository.name_used_by_other id name cat = false.
Proof.
  intros H. unfold EventRepository.name_used_by_other.
  apply bool_decide_eq_false. intros (i & row & Hi & Hne & Hn).
  by apply (H i row).
Qed.

Lemma name_used_by_other_spec id name (cat : gmap string EventRow.t) :
  EventRepository.name_used_by_other id name cat = false →
  ∀ i row, cat !! i = Some row → i ≠ id → EventRow.Name row ≠ name.
Proof.
  unfold EventRepository.name_used_by_other. intros H i row Hi Hne Hn.
  apply bool_decide_eq_false in H. apply H. by exists i, row.
Qed.

(** The two outcomes of the creation of an event. *)
Lemma CreateEvent_cases η req cat cat' r :
  EventService.CreateEvent η req cat = (cat', r) →
  (cat' = cat ∧ ∃ e, r = EErr e)
  ∨ (let row :=
       EventRow.mk
         (Event.mk (ev_uuid η) (CreateEventRequest.Capacity req)
            (CreateEventRequest.Capacity req) (CreateEventRequest.Price req)
            (CreateEventRequest.EventDate req) EventStatusActive)
         (CreateEventRequest.Name req) (CreateEventRequest.Description req)
         (CreateEventRequest.Category req) (CreateEventRequest.Location req)
     in
     r = EOk row
     ∧ cat' = <[ev_uuid η := row]> cat
     ∧ cat !! ev_uuid η = None
     ∧ ev_now η ≤ CreateEventRequest.EventDate req
     ∧ ∀ i row', cat !! i = Some row' →
         EventRow.Name row' ≠ CreateEventRequest.Name req).
Proof.
  unfold EventService.CreateEvent, ereject_if, efail.
  destruct (Time_Before _ _) eqn:Ht.
  { intros [= <- <-]. left. split; [reflexivity | by eexists]. }
  apply Z.ltb_ge in Ht.
  intros H. apply name_must_be_free_cases in H
    as [[-> [[-> _] | ->]] | [Hfree H]];
    [left; split; [reflexivity | by eexists]
    | left; split; [reflexivity | by eexists] |].
  unfold EventRepository.Create, ecall, ebind, eret, efail in H.
  destruct (ev_fails η CatalogCreate).
  { injection H as <- <-. left. split; [reflexivity | by eexists]. }
  assert (Hhook :
    EventRow.set_core (Event.BeforeCreate (ev_uuid η))
      (EventRow.mk
         (Event.mk EmptyString (CreateEventRequest.Capacity req)
            (CreateEventRequest.Capacity req) (CreateEventRequest.Price req)
            (CreateEventRequest.EventDate req) EventStatusActive)
         (CreateEventRequest.Name req) (CreateEventRequest.Description req)
         (CreateEventRequest.Category req) (CreateEventRequest.Location req))
    = EventRow.mk
        (Event.mk (ev_uuid η) (CreateEventRequest.Capacity req)
           (CreateEventRequest.Capacity req) (CreateEventRequest.Price req)
           (CreateEventRequest.EventDate req) EventStatusActive)
        (CreateEventRequest.Name req) (CreateEventRequest.Description req)
        (CreateEventRequest.Category req) (CreateEventRequest.Location req)).
  { unfold EventRow.set_core, Event.BeforeCreate. simpl.
    destruct (CreateEventRequest.Capacity req =? 0) eqn:H0; [| reflexivity].
    apply Z.eqb_eq in H0. unfold Event.set_Available. simpl.
    by rewrite H0. }
  rewrite Hhook in H. cbn [EventRow.core Event.ID EventRow.Name] in H.
  destruct (cat !! ev_uuid η) eqn:Hfresh.
  { injection H as <- <-. left. split; [reflexivity | by eexists]. }
  rewrite name_used_by_other_false in H
    by (intros i row Hi _; by apply (Hfree i)).
  injection H as <- <-. right. cbv zeta. repeat split; assumption.
Qed.

(** The two outcomes of the update of an event. *)
Lemma UpdateEvent_cases η id req cat cat' r :
  EventService.UpdateEvent η id req cat = (cat', r) →
  (cat' = cat ∧ ∃ e, r = EErr e)
  ∨ ∃ row row',
      cat !! id = Some row
      ∧ Event.Status (EventRow.core row) = EventStatusActive
      ∧ r = EOk row'
      ∧ cat' = <[Event.ID (EventRow.core row) := row']> cat
      ∧ Event.ID (EventRow.core row') = Event.ID (EventRow.core row)
      ∧ Event.Status (EventRow.core row') = Event.Status (EventRow.core row)
      ∧ EventRow.Name row'
        = default (EventRow.Name row) (UpdateEventRequest.Name req)
      ∧ (∀ i s, cat !! i = Some s → i ≠ Event.ID (EventRow.core row) →
           EventRow.Name s ≠ EventRow.Name row')
      ∧ match UpdateEventRequest.Capacity req with
        | Some capacity =>
            let sold :=
              int_wrap (Event.Capacity (EventRow.core row)
                        - Event.Available (EventRow.core row)) in
            0 ≤ capacity ∧ sold ≤ capacity
            ∧ Event.Capacity (EventRow.core row') = capacity
            ∧ Event.Available (EventRow.core row')
              = int_wrap (capacity - sold)
        | None =>
            Event.Capacity (EventRow.core row')
            = Event.Capacity (EventRow.core row)
            ∧ Event.Available (EventRow.core row')
              = Event.Available (EventRow.core row)
        end.
Proof.
  intros H. destruct req as [name descr categ capacity price loc date].
  unfold EventService.UpdateEvent in H.
  cbn [UpdateEventRequest.Name UpdateEventRequest.Description
       UpdateEventRequest.Category UpdateEventRequest.Capacity
       UpdateEventRequest.Price UpdateEventRequest.Location
       UpdateEventRequest.EventDate] in *.
  unfold_ecalls.
  destruct (ev_fails η CatalogGetByID);
    [injection H as <- <-; left; split; [reflexivity | by eexists] |].
  destruct (cat !! id) as [row |] eqn:Hrow;
    [| injection H as <- <-; left; split; [reflexivity | by eexists]].
  destruct (Event.CanBeModified (EventRow.core row)) eqn:Hmod;
    cbn [negb] in H;
    [| injection H as <- <-; left; split; [reflexivity | by eexists]].
  apply bool_decide_eq_true in Hmod.
  destruct name as [name |], descr as [descr |], categ as [categ |],
    capacity as [capacity |], price as [price |], loc as [loc |],
    date as [date |];
    repeat ecase_step;
    try (left; split; [reflexivity | by eexists]).
  all: right; exists row; eexists.
  all: split; [reflexivity |]; split; [assumption |].
  all: split; [reflexivity |]; split; [reflexivity |].
  all: split; [reflexivity |]; split; [reflexivity |].
  all: split; [reflexivity |].
  all: split;
    [match goal with
     | H : EventRepository.name_used_by_other _ _ _ = false |- _ =>
         exact (name_used_by_other_spec _ _ _ H)
     end |].
  all: cbn [default EventRow.core EventRow.set_core EventRow.set_Name
            EventRow.set_Description EventRow.set_Category
            EventRow.set_Location Event.Capacity Event.Available].
  all: try (split; reflexivity).
  all: repeat match goal with
         | H : (_ <? _) = false |- _ => apply Z.ltb_ge in H
         end.
  all: cbv zeta; repeat split; first [assumption | reflexivity].
Qed.

(** The two outcomes of the deletion of an event. *)
Lemma DeleteEvent_cases η id cat cat' r :
  EventService.DeleteEvent η id cat = (cat', r) →
  (cat' = cat ∧ ∃ e, r = EErr e)
  ∨ ∃ row,
      cat !! id = Some row
      ∧ int_wrap (Event.Capacity (EventRow.core row)
                  - Event.Available (EventRow.core row)) ≤ 0
      ∧ r = EOk tt
      ∧ cat' = delete id cat.
Proof.
  intros H. unfold_ecalls.
  repeat ecase_step; try (left; split; [reflexivity | by eexists]).
  right. eexists. split; [reflexivity |].
  match goal with H : (0 <? _) = false |- _ => apply Z.ltb_ge in H end.
  repeat split; assumption.
Qed.

Lemma int_wrap_small z : int_min ≤ z ≤ int_max → int_wrap z = z.
Proof.
  unfold int_min, int_max, int_wrap. intros Hz.
  rewrite Z.mod_small; lia.
Qed.

Lemma GetByName_found η name (cat : gmap string EventRow.t) i row :
  ev_fails η CatalogGetByName = false →
  cat !! i = Some row → EventRow.Name row = name →
  ∃ row', EventRepository.GetByName η name cat = (cat, EOk row').
Proof.
  intros Hf Hi Hn.
  destruct (EventRepository.GetByName η name cat) as [cat1 r] eqn:E.
  pose proof (GetByName_cases _ _ _ _ _ E) as [-> Hr].
  destruct r as [row' | e]; [by exists row' |].
  destruct e; try (by apply (Hr i row) in Hn); try discriminate.
  unfold EventRepository.GetByName, ecall in E. rewrite Hf in E.
  destruct (head _) as [[? ?] |]; discriminate.
Qed.

Lemma conserved_insert_event users ledger
    (evs : gmap string Event.t) id e e' :
  evs !! id = Some e →
  Event.Capacity e' - Event.Available e'
  = Event.Capacity e - Event.Available e →
  conserved (mkDB users evs ledger) →
  conserved (mkDB users (<[id := e']> evs) ledger).
Proof.
  intros He Hsold Hc i x. simpl. rewrite lookup_insert. case_decide.
  - intros [= <-]. subst i. specialize (Hc _ _ He). simpl in Hc. lia.
  - apply Hc.
Qed.

(** ** Events: creation, update, deletion *)

(** X19. The creation of an event.  An event date before now gives "event
    date cannot be in the past"; a name that a row already carries gives
    "event name already exists" (the lookup succeeding); every error leaves
    the table as it was.  An event that is returned is stored under the new
    identifier, which no row had; it is active, carries the name, the
    capacity, the price and the date of the request, and has all of its
    capacity available, so that it conserves capacity in any ledger that
    holds nothing of it. *)
Theorem X19_created_event_starts_full η req cat :
  let out := EventService.CreateEvent η req cat in
  (CreateEventRequest.EventDate req < ev_now η →
   out = (cat, EErr EErrDatePast))
  ∧ (ev_now η ≤ CreateEventRequest.EventDate req →
     ev_fails η CatalogGetByName = false →
     (∃ i row, cat !! i = Some row
               ∧ EventRow.Name row = CreateEventRequest.Name req) →
     out = (cat, EErr EErrNameExists))
  ∧ (∀ e, out.2 = EErr e → out.1 = cat)
  ∧ (∀ row, out.2 = EOk row →
       cat !! ev_uuid η = None
       ∧ out.1 = <[ev_uuid η := row]> cat
       ∧ EventRow.Name row = CreateEventRequest.Name req
       ∧ EventRow.core row
         = Event.mk (ev_uuid η) (CreateEventRequest.Capacity req)
             (CreateEventRequest.Capacity req) (CreateEventRequest.Price req)
             (CreateEventRequest.EventDate req) EventStatusActive
       ∧ ∀ users ledger,
           held (ev_uuid η) ledger = 0 →
           conserved (mkDB users (events_of cat) ledger) →
           conserved (mkDB users (events_of out.1) ledger)).
Proof.
  cbv zeta. split; [| split].
  - intros Hlate. unfold EventService.CreateEvent, ereject_if, efail.
    unfold Time_Before. apply Z.ltb_lt in Hlate. by rewrite Hlate.
  - intros Hdate Hf (i & row & Hi & Hn).
    unfold EventService.CreateEvent, ereject_if, efail.
    unfold Time_Before. apply Z.ltb_ge in Hdate. rewrite Hdate.
    unfold EventService.name_must_be_free.
    destruct (GetByName_found η _ cat i row Hf Hi Hn) as [row' ->].
    reflexivity.
  - destruct (EventService.CreateEvent η req cat) as [cat' r] eqn:E.
    cbn [fst snd].
    pose proof (CreateEvent_cases _ _ _ _ _ E) as Hc. cbv zeta in Hc.
    destruct Hc as [[-> [e ->]] | (-> & -> & Hfresh & _ & Hfree)].
    + split; [done | discriminate].
    + split; [discriminate |]. intros row [= <-].
      repeat split; try assumption; try reflexivity.
      intros users ledger Hheld Hc id e. simpl.
      unfold events_of. rewrite fmap_insert, lookup_insert.
      case_decide.
      * intros [= <-]. subst id. simpl. lia.
      * apply Hc.
Qed.




(** X21. A change of capacity keeps the units sold.  For an event with
    [0 ≤ available ≤ capacity], whenever the update returns the event the
    difference [capacity - available] is what it was and the count is still
    between 0 and the capacity; a capacity given in the request is the new
    capacity and is not below the units sold.  So the update conserves
    capacity in every ledger that did before. *)
Theorem X21_resize_keeps_units_sold η id req cat cat' row row' :
  catalog_keyed cat →
  cat !! id = Some row →
  0 ≤ Event.Available (EventRow.core row) ≤ Event.Capacity (EventRow.core row) →
  Event.Capacity (EventRow.core row) ≤ int_max →
  (∀ c, UpdateEventRequest.Capacity req = Some c → c ≤ int_max) →
  EventService.UpdateEvent η id req cat = (cat', EOk row') →
  let sold :=
    Event.Capacity (EventRow.core row) - Event.Available (EventRow.core row)
  in
  Event.Capacity (EventRow.core row') - Event.Available (EventRow.core row')
  = sold
  ∧ 0 ≤ Event.Available (EventRow.core row')
      ≤ Event.Capacity (EventRow.core row')
  ∧ (∀ c, UpdateEventRequest.Capacity req = Some c →
          Event.Capacity (EventRow.core row') = c ∧ sold ≤ c)
  ∧ (UpdateEventRequest.Capacity req = None →
     Event.Capacity (EventRow.core row') = Event.Capacity (EventRow.core row))
  ∧ ∀ users ledger,
      conserved (mkDB users (events_of cat) ledger) →
      conserved (mkDB users (events_of cat') ledger).
Proof.
  intros Hkey Hrow Hav Hcap Hreq E. cbv zeta.
  destruct (UpdateEvent_cases _ _ _ _ _ _ E)
    as [[_ [e He]]
       | (row0 & row1 & Hrow0 & _ & Hr & -> & _ & _ & _ & _ & Hc)];
    [discriminate |].
  rewrite Hrow in Hrow0. injection Hrow0 as <-. injection Hr as <-.
  unfold int_max in *.
  assert (Hsold :
    int_wrap (Event.Capacity (EventRow.core row)
              - Event.Available (EventRow.core row))
    = Event.Capacity (EventRow.core row)
      - Event.Available (EventRow.core row))
    by (apply int_wrap_small; unfold int_min, int_max; lia).
  assert (Hfacts :
    Event.Capacity (EventRow.core row') - Event.Available (EventRow.core row')
    = Event.Capacity (EventRow.core row) - Event.Available (EventRow.core row)
    ∧ 0 ≤ Event.Available (EventRow.core row')
        ≤ Event.Capacity (EventRow.core row')
    ∧ (∀ c, UpdateEventRequest.Capacity req = Some c →
            Event.Capacity (EventRow.core row') = c
            ∧ Event.Capacity (EventRow.core row)
              - Event.Available (EventRow.core row) ≤ c)
    ∧ (UpdateEventRequest.Capacity req = None →
       Event.Capacity (EventRow.core row')
       = Event.Capacity (EventRow.core row))).
  { destruct (UpdateEventRequest.Capacity req) as [c |] eqn:Hc0.
    - cbv zeta in Hc. rewrite Hsold in Hc.
      destruct Hc as (Hc1 & Hc2 & Hc3 & Hc4).
      specialize (Hreq c eq_refl).
      rewrite int_wrap_small in Hc4 by (unfold int_min, int_max; lia).
      split; [lia |]. split; [lia |]. split; [| discriminate].
      intros c' [= <-]. split; [assumption | lia].
    - destruct Hc as [Hc1 Hc2].
      split; [lia |]. split; [lia |]. split; [discriminate |].
      intros _. assumption. }
  destruct Hfacts as (H1 & H2 & H3 & H4).
  repeat split; try assumption; try lia; try (by apply H3).
  intros users ledger Hcons. unfold events_of. rewrite fmap_insert.
  rewrite (Hkey _ _ Hrow).
  apply (conserved_insert_event _ _ _ _ (EventRow.core row));
    [by rewrite lookup_fmap, Hrow | exact H1 | exact Hcons].
Qed.

Lemma X21_resize_keeps_units_sold_witness :
  let req :=
    UpdateEventRequest.mk None None None (Some 20) None None None in
  let row' :=
    EventRow.mk (Event.mk "e1" 20 17 50 (100 * Hour) EventStatusActive)
      "Concert" "" "music" "Jakarta" in
  let sold :=
    Event.Capacity (concert 7) - Event.Available (concert 7) in
  Event.Capacity (EventRow.core row') - Event.Available (EventRow.core row')
  = sold
  ∧ 0 ≤ Event.Available (EventRow.core row')
      ≤ Event.Capacity (EventRow.core row')
  ∧ (∀ c, UpdateEventRequest.Capacity req = Some c →
          Event.Capacity (EventRow.core row') = c ∧ sold ≤ c)
  ∧ (UpdateEventRequest.Capacity req = None →
     Event.Capacity (EventRow.core row') = Event.Capacity (concert 7))
  ∧ ∀ users ledger,
      conserved (mkDB users (events_of {[ "e1"%string := concert_row 7 ]})
                   ledger) →
      conserved (mkDB users (events_of {[ "e1"%string := row' ]}) ledger).
Proof.
  cbv zeta.
  apply (X21_resize_keeps_units_sold env_admin "e1"
           (UpdateEventRequest.mk None None None (Some 20) None None None)
           {[ "e1"%string := concert_row 7 ]} _ (concert_row 7) _).
  - intros id row H. by apply lookup_singleton_Some in H as [<- <-].
  - reflexivity.
  - vm_compute. split; congruence.
  - vm_compute. congruence.
  - intros c [= <-]. vm_compute. congruence.
  - vm_compute. reflexivity.
Defined.

Lemma DeleteEvent_refuses_sold η id cat row :
  ev_fails η CatalogGetByID = false → cat !! id = Some row →
  0 ≤ Event.Available (EventRow.core row)
    < Event.Capacity (EventRow.core row) →
  Event.Capacity (EventRow.core row) ≤ int_max →
  EventService.DeleteEvent η id cat = (cat, EErr EErrHasSoldTickets).
Proof.
  intros Hf Hrow Hav Hmax. unfold_ecalls. rewrite Hf, Hrow.
  rewrite int_wrap_small by (unfold int_min, int_max in *; lia).
  assert (Hpos : (0 <? Event.Capacity (EventRow.core row)
                       - Event.Available (EventRow.core row)) = true)
    by (apply Z.ltb_lt; lia).
  by rewrite Hpos.
Qed.

(** X22. The deletion of an event writes nothing when it returns an error;
    it refuses, with "cannot delete event with sold tickets", every event
    whose count is below its capacity; when it succeeds the row is gone,
    the other rows are as they were, and the event had no unit sold. *)
Theorem X22_delete_event_needs_nothing_sold η id cat :
  let out := EventService.DeleteEvent η id cat in
  (∀ e, out.2 = EErr e → out.1 = cat)
  ∧ (out.2 = EOk tt →
     out.1 = delete id cat
     ∧ ∃ row, cat !! id = Some row
              ∧ (0 ≤ Event.Available (EventRow.core row) →
                 Event.Capacity (EventRow.core row) ≤ int_max →
                 int_min ≤ Event.Capacity (EventRow.core row)
                           - Event.Available (EventRow.core row) →
                 Event.Capacity (EventRow.core row)
                 ≤ Event.Available (EventRow.core row)))
  ∧ (∀ row,
       ev_fails η CatalogGetByID = false → cat !! id = Some row →
       0 ≤ Event.Available (EventRow.core row)
         < Event.Capacity (EventRow.core row) →
       Event.Capacity (EventRow.core row) ≤ int_max →
       out = (cat, EErr EErrHasSoldTickets)).
Proof.
  cbv zeta. split; [| split].
  - destruct (EventService.DeleteEvent η id cat) as [cat' r] eqn:E.
    cbn [fst snd].
    destruct (DeleteEvent_cases _ _ _ _ _ E)
      as [[-> _] | (row & _ & _ & -> & _)]; [done | discriminate].
  - destruct (EventService.DeleteEvent η id cat) as [cat' r] eqn:E.
    cbn [fst snd].
    destruct (DeleteEvent_cases _ _ _ _ _ E)
      as [[_ [e ->]] | (row & Hrow & Hsold & _ & ->)]; [discriminate |].
    intros _. split; [reflexivity |]. exists row. split; [assumption |].
    intros H0 Hmax Hmin.
    rewrite int_wrap_small in Hsold by (unfold int_max in *; lia). lia.
  - intros row Hf Hrow Hav Hmax. by apply DeleteEvent_refuses_sold with row.
Qed.

(** X23. An event on which a purchase has just succeeded cannot be deleted:
    after a purchase of at least one unit on an event whose count was
    within its capacity, the deletion of that event returns "cannot delete
    event with sold tickets" and changes nothing, on any events table that
    shows the columns the purchase left. *)
Theorem X23_purchase_blocks_deletion
    ηb userID req db db' ticket event ηd cat :
  BuyTicket ηb userID req db = (db', Ok ticket) →
  1 ≤ BuyTicketRequest.Quantity req →
  events db !! BuyTicketRequest.EventID req = Some event →
  Event.Available event ≤ Event.Capacity event →
  Event.Capacity event ≤ int_max →
  events_of cat = events db' →
  ev_fails ηd CatalogGetByID = false →
  EventService.DeleteEvent ηd (BuyTicketRequest.EventID req) cat
  = (cat, EErr EErrHasSoldTickets).
Proof.
  intros H Hq He Hcap Hmax Hcat Hf.
  pose proof (BuyTicket_Ok _ _ _ _ _ _ H) as Hok. cbv zeta in Hok.
  destruct Hok
    as (user & event' & _ & _ & He' & _ & Hle & _ & _ & _ & ->).
  rewrite He in He'. injection He' as <-.
  assert (Hrow : events_of cat !! BuyTicketRequest.EventID req
                 = Some (Event.set_Available
                           (λ a, a - BuyTicketRequest.Quantity req) event))
    by (rewrite Hcat; simpl; apply lookup_insert_eq).
  unfold events_of in Hrow. rewrite lookup_fmap in Hrow.
  destruct (cat !! BuyTicketRequest.EventID req) as [row |] eqn:Hr;
    [| discriminate].
  injection Hrow as Hcore.
  apply (DeleteEvent_refuses_sold ηd _ cat row Hf Hr);
    rewrite Hcore; simpl; lia.
Qed.

Lemma X23_purchase_blocks_deletion_witness :
  EventService.DeleteEvent env_admin "e1" {[ "e1"%string := concert_row 7 ]}
  = ({[ "e1"%string := concert_row 7 ]}, EErr EErrHasSoldTickets).
Proof.
  apply (X23_purchase_blocks_deletion env0 "u1" (BuyTicketRequest.mk "e1" 3)
           db0 db1 (ticket_B TicketStatusActive) (concert 10) env_admin
           {[ "e1"%string := concert_row 7 ]});
    first [reflexivity | vm_compute; first [reflexivity | congruence]].
Defined.




(** ** The status code of the status-update handler *)

Lemma UpdateTicketStatus_status_of_error e :
  (if error_is e "cannot update cancelled ticket"
      || error_is e "can only mark active tickets as used"
   then StatusBadRequest else StatusInternalServerError)
  = match e with
    | ErrCannotUpdateCancelled | ErrOnlyActiveUsed => StatusBadRequest
    | _ => StatusInternalServerError
    end.
Proof. destruct e; reflexivity. Qed.

(** X25. The answer of the handler that updates the status of a ticket,
    for a ticket id that is not empty and a body that binds: the code is
    200 exactly when the service returned the ticket; any other code comes
    with the database unchanged; the two refusals of the service are
    answered 400 and every other error 500, among them "record not found"
    for a ticket that does not exist; and whatever the code, no event has
    changed. *)
Theorem X25_status_handler_status η ticketID req db :
  ticketID ≠ EmptyString →
  let out := TicketController.UpdateTicketStatus η ticketID (Some req) db in
  let res := UpdateTicketStatus η ticketID req db in
  out.1 = res.1
  ∧ (out.2 = StatusOK ↔ ∃ ticket, res.2 = Ok ticket)
  ∧ (out.2 ≠ StatusOK → out.1 = db)
  ∧ (∀ e, res.2 = Err e →
       out.2 = match e with
               | ErrCannotUpdateCancelled | ErrOnlyActiveUsed =>
                   StatusBadRequest
               | _ => StatusInternalServerError
               end)
  ∧ events out.1 = events db
  ∧ (fails η TicketGetByID = false → tickets db !! ticketID = None →
     out = (db, StatusInternalServerError)).
Proof.
  intros Hid. cbv zeta.
  assert (Hmiss : fails η TicketGetByID = false →
                  tickets db !! ticketID = None →
                  UpdateTicketStatus η ticketID req db
                  = (db, Err ErrRecordNotFound)).
  { intros Hf Hk. unfold UpdateTicketStatus. unfold_calls.
    by rewrite Hf, Hk. }
  unfold TicketController.UpdateTicketStatus.
  rewrite (bool_decide_eq_false_2 _ Hid).
  destruct (UpdateTicketStatus η ticketID req db) as [db' r] eqn:E.
  assert (Hev : events db' = events db).
  { destruct (UpdateTicketStatus_cases _ _ _ _ _ _ E)
      as [[-> _] | (k & _ & _ & _ & _ & ->)]; reflexivity. }
  destruct r as [ticket | e]; cbn [fst snd].
  - split; [reflexivity |]. split; [split; [by eexists | reflexivity] |].
    split; [done |]. split; [discriminate |]. split; [exact Hev |].
    intros Hf Hk. specialize (Hmiss Hf Hk). discriminate.
  - rewrite UpdateTicketStatus_status_of_error.
    assert (Hdb : db' = db).
    { destruct (UpdateTicketStatus_cases _ _ _ _ _ _ E)
        as [[-> _] | (k & _ & _ & _ & Hr & _)];
        [reflexivity | discriminate]. }
    split; [reflexivity |].
    split; [split; [by destruct e | by intros [t Ht]] |].
    split; [by intros _ |].
    split; [by intros e' [= <-] |].
    split; [exact Hev |].
    intros Hf Hk. specialize (Hmiss Hf Hk). by injection Hmiss as -> ->.
Qed.

Lemma X25_status_handler_status_witness :
  let req := UpdateTicketStatusRequest.mk TicketStatusUsed in
  let out := TicketController.UpdateTicketStatus env0 "t1" (Some req) db1 in
  let res := UpdateTicketStatus env0 "t1" req db1 in
  out.1 = res.1
  ∧ (out.2 = StatusOK ↔ ∃ ticket, res.2 = Ok ticket)
  ∧ (out.2 ≠ StatusOK → out.1 = db1)
  ∧ (∀ e, res.2 = Err e →
       out.2 = match e with
               | ErrCannotUpdateCancelled | ErrOnlyActiveUsed =>
                   StatusBadRequest
               | _ => StatusInternalServerError
               end)
  ∧ events out.1 = events db1
  ∧ (fails env0 TicketGetByID = false → tickets db1 !! "t1"%string = None →
     out = (db1, StatusInternalServerError)).
Proof.
  apply (X25_status_handler_status env0 "t1"
           (UpdateTicketStatusRequest.mk TicketStatusUsed) db1).
  discriminate.
Defined.
